(** * EasyDB client: schema validation and construction

    A shallow embedding of [easydb/checks.py] and of the [Database] class of
    [easydb/easydb.py], followed by the properties of the schema layer.

    Python values are an inductive type covering what a definition list is
    written with: [None], booleans, integers, strings, class objects, lists
    and tuples.  A [str] is a [string] whose characters are code points in the
    range 0..255.  A function that may raise
    returns a [result]; the constructor and [insert], which mutate the handle,
    live in a state-and-exception monad over the record of the handle's
    fields, so that the fields left behind by a raising constructor can be
    inspected. *)

From Stdlib Require Import ZArith String Ascii Lia.
From stdpp Require Import base list strings.

Open Scope string_scope.
Open Scope list_scope.
Set Warnings "-register-all".

(** ** Python values *)

(** The class objects that can stand where a column type is expected.
    [class_bool] is an example of a class that is not a type marker. *)
Inductive pytype := class_str | class_int | class_float | class_bool.

Inductive pyval :=
| PNone
| PBool (b : bool)
| PInt (n : Z)
| PStr (s : string)
| PClass (c : pytype)
| PList (l : list pyval)
| PTuple (l : list pyval).

(** Exceptions, by class, with their message.  [IntegrityError] is the class
    exported by [easydb.exception]. *)
Inductive exn :=
| TypeError (msg : string)
| ValueError (msg : string)
| IntegrityError (msg : string)
| IndexError (msg : string).

Inductive result (A : Type) :=
| Ok (a : A)
| Raise (e : exn).
Arguments Ok {A} a.
Arguments Raise {A} e.

Definition type_name (v : pyval) : string :=
  match v with
  | PNone => "NoneType"
  | PBool _ => "bool"
  | PInt _ => "int"
  | PStr _ => "str"
  | PClass _ => "type"
  | PList _ => "list"
  | PTuple _ => "tuple"
  end.

(** [s == v] for a [str] on the left: equal text when [v] is a [str], and
    [False] against a value of any other type. *)
Definition str_eq (s : string) (v : pyval) : bool :=
  match v with PStr t => String.eqb s t | _ => false end.

(** [v != False].  [False] equals itself and the integer [0]. *)
Definition ne_False (v : pyval) : bool :=
  match v with
  | PBool false => false
  | PInt 0 => false
  | _ => true
  end.

(** [c != str and c != int and c != float] for a value that is not a [str]. *)
Definition is_type_marker (v : pyval) : bool :=
  match v with
  | PClass class_str | PClass class_int | PClass class_float => true
  | _ => false
  end.

(** [rows[i]] on a list held in a field or passed to a check, for an index
    [i >= 0]: [IndexError] out of range. *)
Definition row_at {A} (rows : list A) (i : nat) : result A :=
  match rows !! i with
  | Some r => Ok r
  | None => Raise (IndexError "list index out of range")
  end.

Definition char_str (c : ascii) : pyval := PStr (String c "").

(** [v[i]] for an index [i >= 0]. *)
Definition getitem (v : pyval) (i : nat) : result pyval :=
  match v with
  | PStr s =>
      match String.get i s with
      | Some c => Ok (char_str c)
      | None => Raise (IndexError "string index out of range")
      end
  | PList l =>
      match l !! i with
      | Some x => Ok x
      | None => Raise (IndexError "list index out of range")
      end
  | PTuple l =>
      match l !! i with
      | Some x => Ok x
      | None => Raise (IndexError "tuple index out of range")
      end
  | _ => Raise (TypeError ("'" ++ type_name v ++ "' object is not subscriptable")%string)
  end.

(** [iter(v)], as the list of items a [for] loop over [v] visits. *)
Definition py_iter (v : pyval) : result (list pyval) :=
  match v with
  | PStr s => Ok (char_str <$> list_ascii_of_string s)
  | PList l => Ok l
  | PTuple l => Ok l
  | _ => Raise (TypeError ("'" ++ type_name v ++ "' object is not iterable")%string)
  end.

(** ** Characters *)

Definition code (c : ascii) : N := N_of_ascii c.

Definition between (lo hi : N) (c : ascii) : bool :=
  ((lo <=? code c) && (code c <=? hi))%N.

(** [c.isalpha()] on the code points 0..255: the ASCII letters and the
    letters of the Latin-1 block (U+00AA, U+00B5, U+00BA, U+00C0..U+00D6,
    U+00D8..U+00F6, U+00F8..U+00FF). *)
Definition char_isalpha (c : ascii) : bool :=
  between 65 90 c || between 97 122 c
  || between 170 170 c || between 181 181 c || between 186 186 c
  || between 192 214 c || between 216 246 c || between 248 255 c.

(** [s.isalpha()]: at least one character, all of them alphabetic. *)
Definition isalpha (s : string) : bool :=
  match s with
  | "" => false
  | _ => forallb char_isalpha (list_ascii_of_string s)
  end.

(** The character class [[A-Za-z0-9_]] of the pattern. *)
Definition word_char (c : ascii) : bool :=
  between 65 90 c || between 97 122 c || between 48 57 c || between 95 95 c.

Definition newline : ascii := ascii_of_N 10.

(** [re.match("^[A-Za-z0-9_]*$", s) != None].  The star takes the longest run
    of class characters; without [re.MULTILINE], [$] then matches at the end
    of the text and also just before a newline that is its last character. *)
Fixpoint re_match_word (s : string) : bool :=
  match s with
  | "" => true
  | String c rest =>
      if word_char c then re_match_word rest
      else Ascii.eqb c newline && String.eqb rest ""
  end.

(** ** checks.py *)

(** [iterable_check(obj)]: the lines printed and the value returned. *)
Definition iterable_check (obj : pyval) : list string * pyval :=
  match py_iter obj with
  | Raise (TypeError _) => (["item is not iterable"], PBool false)
  | _ => ([], PNone)
  end.

(** [isalpha] of the one-character string [name[0]]. *)
Definition first_isalpha (name : string) : result bool :=
  match getitem (PStr name) 0 with
  | Ok (PStr c) => Ok (isalpha c)
  | Ok _ => Ok false
  | Raise e => Raise e
  end.

(** [for name in existing_names: if candidate == name: raise ...] finds a
    name iff one of the items equals the candidate. *)
Definition duplicated (candidate : string) (existing_names : list pyval) : bool :=
  existsb (str_eq candidate) existing_names.

(** [table_name_check(table_name, existing_names)].  The [match] on
    [table_name] is the [isinstance(table_name, str)] test; a call that
    raises nothing falls off the end of the function and returns [None]. *)
Definition table_name_check (table_name : pyval) (existing_names : list pyval)
  : result pyval :=
  match table_name with
  | PStr s =>
      match first_isalpha s with
      | Raise e => Raise e
      | Ok false => Raise (ValueError "table name must start with a letter")
      | Ok true =>
          if negb (re_match_word s) then
            Raise (ValueError "table name must only contain letters, numbers and underscore")
          else if duplicated s existing_names then
            Raise (ValueError "duplicate table names")
          else Ok PNone
      end
  | _ => Raise (TypeError "table name is not a string")
  end.

(** [column_name_check(col_name, existing_names)]: the same tests, with
    messages of its own. *)
Definition column_name_check (col_name : pyval) (existing_names : list pyval)
  : result pyval :=
  match col_name with
  | PStr s =>
      match first_isalpha s with
      | Raise e => Raise e
      | Ok false => Raise (ValueError "column name must start with a letter")
      | Ok true =>
          if negb (re_match_word s) then
            Raise (ValueError "column name must only contain letters, numbers and underscore")
          else if duplicated s existing_names then
            Raise (ValueError "duplicate column names")
          else Ok PNone
      end
  | _ => Raise (TypeError "column name is not a string")
  end.

(** [column_type_check(col_type, table_index, existing_table_names)].  A
    [str] is compared with [existing_table_names[table_index]] and then
    looked up in the list; any other value must be one of the classes
    [str], [int], [float]. *)
Definition column_type_check (col_type : pyval) (table_index : nat)
    (existing_table_names : list pyval) : result pyval :=
  match col_type with
  | PStr s =>
      match row_at existing_table_names table_index with
      | Raise e => Raise e
      | Ok current =>
          if str_eq s current then
            Raise (IntegrityError "foreign key causes a cycle: references to current table")
          else if negb (existsb (str_eq s) existing_table_names) then
            Raise (IntegrityError "foreign key references a nonexistent table")
          else Ok PNone
      end
  | _ =>
      if negb (is_type_marker col_type) then
        Raise (ValueError "column type is not one of strng, float or integer")
      else Ok PNone
  end.

(** ** easydb.py: the handle and its monad *)

(** The fields of a [Database] object.  [table_count] and the entries of
    [table_col_count] start at 0 and are only incremented, and [table_count]
    is used as a list index: they are natural numbers. *)
Record Database := mkDatabase {
  schema : pyval;
  table_names : list pyval;
  table_count : nat;
  table_col_count : list nat;
  column : list (list pyval);
  col_type : list (list pyval);
  pk : Z;
  version : Z
}.

(** A method body: from the fields before to an outcome and the fields
    after.  A raised exception leaves the fields as they were at the raise. *)
Definition M (A : Type) : Type := Database -> result A * Database.

Definition ret {A} (a : A) : M A := fun self => (Ok a, self).

Definition bind {A B} (m : M A) (f : A -> M B) : M B :=
  fun self =>
    match m self with
    | (Ok a, self') => f a self'
    | (Raise e, self') => (Raise e, self')
    end.

Definition lift {A} (r : result A) : M A := fun self => (r, self).
Definition gets {A} (field : Database -> A) : M A := fun self => (Ok (field self), self).
Definition modify (f : Database -> Database) : M unit := fun self => (Ok tt, f self).

Notation "x <- m ;; k" := (bind m (fun x => k))
  (at level 100, m at next level, right associativity).
Notation "m ;;; k" := (bind m (fun _ => k))
  (at level 100, right associativity).

(** [for x in items: body(x)] *)
Fixpoint for_each {A} (body : A -> M unit) (items : list A) : M unit :=
  match items with
  | [] => ret tt
  | x :: rest => body x ;;; for_each body rest
  end.

Definition set_schema v (d : Database) :=
  mkDatabase v (table_names d) (table_count d) (table_col_count d)
    (column d) (col_type d) (pk d) (version d).
Definition set_table_names v (d : Database) :=
  mkDatabase (schema d) v (table_count d) (table_col_count d)
    (column d) (col_type d) (pk d) (version d).
Definition set_table_count v (d : Database) :=
  mkDatabase (schema d) (table_names d) v (table_col_count d)
    (column d) (col_type d) (pk d) (version d).
Definition set_table_col_count v (d : Database) :=
  mkDatabase (schema d) (table_names d) (table_count d) v
    (column d) (col_type d) (pk d) (version d).
Definition set_column v (d : Database) :=
  mkDatabase (schema d) (table_names d) (table_count d) (table_col_count d)
    v (col_type d) (pk d) (version d).
Definition set_col_type v (d : Database) :=
  mkDatabase (schema d) (table_names d) (table_count d) (table_col_count d)
    (column d) v (pk d) (version d).
Definition set_pk v (d : Database) :=
  mkDatabase (schema d) (table_names d) (table_count d) (table_col_count d)
    (column d) (col_type d) v (version d).

(** [self.column[self.table_count].append(x)] *)
Definition column_append (x : pyval) : M unit :=
  tc <- gets table_count ;;
  rows <- gets column ;;
  row <- lift (row_at rows tc) ;;
  modify (set_column (<[tc := row ++ [x]]> rows)).

(** [self.col_type[self.table_count].append(x)] *)
Definition col_type_append (x : pyval) : M unit :=
  tc <- gets table_count ;;
  rows <- gets col_type ;;
  row <- lift (row_at rows tc) ;;
  modify (set_col_type (<[tc := row ++ [x]]> rows)).

(** [self.table_col_count[self.table_count] += 1] *)
Definition table_col_count_incr : M unit :=
  tc <- gets table_count ;;
  counts <- gets table_col_count ;;
  n <- lift (row_at counts tc) ;;
  modify (set_table_col_count (<[tc := n + 1]> counts)).

(** The body of the inner loop of [__init__], for one item [columns] of
    [tables[self.table_count][1]]. *)
Definition column_body (columns : pyval) : M unit :=
  column_append (PList []) ;;;
  name <- lift (getitem columns 0) ;;
  tc <- gets table_count ;;
  rows <- gets column ;;
  existing <- lift (row_at rows tc) ;;
  checked <- lift (column_name_check name existing) ;;
  (if ne_False checked then
     column_append name ;;;
     table_col_count_incr
   else ret tt) ;;;
  ty <- lift (getitem columns 1) ;;
  tc <- gets table_count ;;
  names <- gets table_names ;;
  resolved <- lift (column_type_check ty tc names) ;;
  if ne_False resolved then col_type_append ty else ret tt.

(** The body of the outer loop of [__init__], for one item [table] of
    [tables]. *)
Definition table_body (tables table : pyval) : M unit :=
  name <- lift (getitem table 0) ;;
  names <- gets table_names ;;
  checked <- lift (table_name_check name names) ;;
  if ne_False checked then
    modify (fun d => set_table_names (table_names d ++ [name]) d) ;;;
    modify (fun d => set_column (column d ++ [[]]) d) ;;;
    modify (fun d => set_col_type (col_type d ++ [[]]) d) ;;;
    modify (fun d => set_table_col_count (table_col_count d ++ [0]) d) ;;;
    tc <- gets table_count ;;
    current <- lift (getitem tables tc) ;;
    cols <- lift (getitem current 1) ;;
    items <- lift (py_iter cols) ;;
    for_each column_body items ;;;
    modify (fun d => set_table_count (table_count d + 1) d)
  else ret tt.

(** The fields as the first lines of [__init__] set them. *)
Definition fresh : Database :=
  mkDatabase (PTuple []) [] 0 [] [] [] 1 0.

(** [Database(tables)]: the lines printed, the outcome and the fields.  When
    the outcome is [Raise], no object reaches the caller; the fields are
    those of the object under construction at the raise. *)
Definition __init__ (tables : pyval) : list string * (result unit * Database) :=
  let (printed, iterable) := iterable_check tables in
  (printed,
   if ne_False iterable then
     (modify (set_schema tables) ;;;
      items <- lift (py_iter tables) ;;
      for_each (table_body tables) items) fresh
   else (Ok tt, fresh)).

(** [insert] calls [insert_check], which [checks.py] does not define: the
    row-value checker is a parameter of the section, a function of the
    arguments it is called with that returns a value or raises. *)
Section Insert.

Variable insert_check :
  pyval -> pyval -> list pyval -> list nat -> list (list pyval) -> result pyval.

Definition insert (table_name values : pyval) : M pyval :=
  names <- gets table_names ;;
  counts <- gets table_col_count ;;
  types <- gets col_type ;;
  checked <- lift (insert_check table_name values names counts types) ;;
  (if ne_False checked then
     modify (fun d => set_pk (pk d + 1)%Z d)
   else ret tt) ;;;
  p <- gets pk ;;
  v <- gets version ;;
  ret (PTuple [PInt p; PInt v]).

End Insert.

(** ** Error kinds

    The taxonomy of failures of the schema layer, and the exceptions of
    [checks.py] that stand for each kind.  No exception stands for
    [NotIterable]: [iterable_check] prints a line and returns [False].
    [IndexError] and the [TypeError] of a subscript or of a loop, raised by
    the interpreter and not by a check, have no kind. *)
Inductive Kind :=
| NotAString
| MustStartWithLetter
| InvalidCharacters
| DuplicateName
| SelfReferencingForeignKey
| UnknownForeignKeyTarget
| UnsupportedColumnType
| NotIterable.

Definition kind_of (e : exn) : option Kind :=
  match e with
  | TypeError "table name is not a string"
  | TypeError "column name is not a string" => Some NotAString
  | ValueError "table name must start with a letter"
  | ValueError "column name must start with a letter" => Some MustStartWithLetter
  | ValueError "table name must only contain letters, numbers and underscore"
  | ValueError "column name must only contain letters, numbers and underscore" =>
      Some InvalidCharacters
  | ValueError "duplicate table names"
  | ValueError "duplicate column names" => Some DuplicateName
  | IntegrityError "foreign key causes a cycle: references to current table" =>
      Some SelfReferencingForeignKey
  | IntegrityError "foreign key references a nonexistent table" =>
      Some UnknownForeignKeyTarget
  | ValueError "column type is not one of strng, float or integer" =>
      Some UnsupportedColumnType
  | _ => None
  end.

(** [fails_with r k]: [r] is a raised exception of kind [k]. *)
Definition fails_with {A} (r : result A) (k : Kind) : Prop :=
  match r with
  | Raise e => kind_of e = Some k
  | Ok _ => False
  end.

(** Python source literals used in the examples. *)
Definition users_posts : pyval :=
  PList [PTuple [PStr "users";
                 PList [PTuple [PStr "name"; PClass class_str];
                        PTuple [PStr "age"; PClass class_int]]];
         PTuple [PStr "posts";
                 PList [PTuple [PStr "author"; PStr "users"]]]].

Definition self_ref : pyval :=
  PList [PTuple [PStr "a"; PList [PTuple [PStr "self_ref"; PStr "a"]]]].

Definition two_users : pyval :=
  PList [PTuple [PStr "users"; PList []]; PTuple [PStr "users"; PList []]].

Definition users_Users : pyval :=
  PList [PTuple [PStr "users"; PList []]; PTuple [PStr "Users"; PList []]].

Definition forward_ref : pyval :=
  PList [PTuple [PStr "posts"; PList [PTuple [PStr "author"; PStr "users"]]];
         PTuple [PStr "users"; PList [PTuple [PStr "name"; PClass class_str]]]].

Definition bad_column_name : pyval :=
  PList [PTuple [PStr "a"; PList [PTuple [PStr "1"; PStr "a"]]]].

(** The outcome and the fields in what [__init__] returns. *)
Definition outcome (run : list string * (result unit * Database)) := run.2.1.
Definition fields (run : list string * (result unit * Database)) := run.2.2.

(** ** Reading a definition list

    What the input declares, read with the same subscripts as the
    constructor uses: [tables[i][1]] for the column definitions of table [i],
    [c[0]] and [c[1]] for the name and the type of a column definition. *)

Definition rbind {A B} (r : result A) (f : A -> result B) : result B :=
  match r with
  | Ok a => f a
  | Raise e => Raise e
  end.

Fixpoint collect {A B} (f : A -> result B) (l : list A) : result (list B) :=
  match l with
  | [] => Ok []
  | x :: rest =>
      rbind (f x) (fun y => rbind (collect f rest) (fun ys => Ok (y :: ys)))
  end.

Definition declared_columns (tables : pyval) (i : nat) : result (list pyval) :=
  rbind (getitem tables i) (fun t => rbind (getitem t 1) py_iter).

Definition column_names (cols : list pyval) : result (list pyval) :=
  collect (fun c => getitem c 0) cols.

Definition column_types (cols : list pyval) : result (list pyval) :=
  collect (fun c => getitem c 1) cols.

(** A row of [column]: an empty list, then the name, for each name. *)
Definition with_placeholders (names : list pyval) : list pyval :=
  names ≫= (fun n => [PList []; n]).

(** A column type that passed [column_type_check] through its [str] branch
    names the table it refers to. *)
Definition foreign_key_target (ty : pyval) : option string :=
  match ty with PStr t => Some t | _ => None end.

(** The handles a caller can hold: built by the constructor without an
    exception, then passed through any number of [insert] calls. *)
Inductive handle
    (insert_check : pyval -> pyval -> list pyval -> list nat ->
                    list (list pyval) -> result pyval) : Database -> Prop :=
| handle_new tables printed d :
    __init__ tables = (printed, (Ok tt, d)) -> handle insert_check d
| handle_insert d table_name values r d' :
    handle insert_check d ->
    insert insert_check table_name values d = (r, d') ->
    handle insert_check d'.

(** A row-value checker that accepts every row. *)
Definition accept_all (table_name values : pyval) (names : list pyval)
    (counts : list nat) (types : list (list pyval)) : result pyval :=
  Ok PNone.

(** ** The fields along a run of the constructor *)

(** After one pass of the inner loop that raised nothing: a placeholder and
    the name on the current row of [column], the type on the current row of
    [col_type], one more in the current entry of [table_col_count]. *)
Definition column_added (name ty : pyval) (crow trow : list pyval) (n : nat)
    (d : Database) : Database :=
  mkDatabase (schema d) (table_names d) (table_count d)
    (<[table_count d := n + 1]> (table_col_count d))
    (<[table_count d := crow ++ [PList []; name]]> (column d))
    (<[table_count d := trow ++ [ty]]> (col_type d))
    (pk d) (version d).

(** After [k] such passes. *)
Definition columns_added (names tys : list pyval) (k : nat)
    (crow trow : list pyval) (n : nat) (d : Database) : Database :=
  mkDatabase (schema d) (table_names d) (table_count d)
    (<[table_count d := n + k]> (table_col_count d))
    (<[table_count d := crow ++ with_placeholders names]> (column d))
    (<[table_count d := trow ++ tys]> (col_type d))
    (pk d) (version d).

(** After the four [append] calls that register a table name. *)
Definition registered (name : pyval) (d : Database) : Database :=
  mkDatabase (schema d) (table_names d ++ [name]) (table_count d)
    (table_col_count d ++ [0]) (column d ++ [[]])
    (col_type d ++ [[]]) (pk d) (version d).

(** After a whole pass of the outer loop that raised nothing. *)
Definition table_added (name : pyval) (names tys : list pyval) (k : nat)
    (d : Database) : Database :=
  mkDatabase (schema d) (table_names d ++ [name]) (table_count d + 1)
    (table_col_count d ++ [k])
    (column d ++ [with_placeholders names])
    (col_type d ++ [tys]) (pk d) (version d).

(** Table [i] of the input is recorded in the fields. *)
Definition table_built (tables : pyval) (d : Database) (i : nat) : Prop :=
  exists t name cols names tys,
    getitem tables i = Ok t /\ getitem t 0 = Ok name /\
    declared_columns tables i = Ok cols /\
    column_names cols = Ok names /\ column_types cols = Ok tys /\
    table_names d !! i = Some name /\
    table_col_count d !! i = Some (length cols) /\
    column d !! i = Some (with_placeholders names) /\
    col_type d !! i = Some tys.

(** The first [k] tables of the input, and nothing else, are recorded. *)
Definition built_upto (tables : pyval) (d : Database) (k : nat) : Prop :=
  table_count d = k /\
  length (table_names d) = k /\ length (table_col_count d) = k /\
  length (column d) = k /\ length (col_type d) = k /\
  forall i, i < k -> table_built tables d i.

(** A method body that neither reads nor writes [schema]. *)
Definition schema_blind {A} (m : M A) : Prop :=
  forall v d, m (set_schema v d) = let (r, d') := m d in (r, set_schema v d').

(** ** easydb.py: the other methods

    [__repr__] and the methods whose body is a placeholder.  [connect]
    returns [False]; the others fall off the end and return [None].  None of
    them reads its arguments or touches a field. *)

Definition __repr__ : M pyval := ret (PStr "<EasyDB Database object>").

Definition connect (host port : pyval) : M pyval := ret (PBool false).

Definition close : M pyval := ret PNone.

Definition update (table_name row_pk values row_version : pyval) : M pyval :=
  ret PNone.

Definition drop (table_name row_pk : pyval) : M pyval := ret PNone.

Definition get (table_name row_pk : pyval) : M pyval := ret PNone.

Definition scan (table_name op column_name value : pyval) : M pyval :=
  ret PNone.

(** A call of a method on a handle, with its arguments, and the handles a
    caller can get to from a given one through any sequence of calls,
    whether they return or raise. *)
Inductive call :=
| Repr
| Connect (host port : pyval)
| Close
| Insert (table_name values : pyval)
| Update (table_name row_pk values row_version : pyval)
| Drop (table_name row_pk : pyval)
| Get (table_name row_pk : pyval)
| Scan (table_name op column_name value : pyval).

Definition perform
    (insert_check : pyval -> pyval -> list pyval -> list nat ->
                    list (list pyval) -> result pyval)
    (c : call) : M pyval :=
  match c with
  | Repr => __repr__
  | Connect host port => connect host port
  | Close => close
  | Insert table_name values => insert insert_check table_name values
  | Update table_name row_pk values row_version =>
      update table_name row_pk values row_version
  | Drop table_name row_pk => drop table_name row_pk
  | Get table_name row_pk => get table_name row_pk
  | Scan table_name op column_name value => scan table_name op column_name value
  end.

Inductive reaches
    (insert_check : pyval -> pyval -> list pyval -> list nat ->
                    list (list pyval) -> result pyval) : Database -> Database -> Prop :=
| reaches_here d : reaches insert_check d d
| reaches_call d c r d1 d2 :
    perform insert_check c d = (r, d1) ->
    reaches insert_check d1 d2 ->
    reaches insert_check d d2.

(** ** What the checks accept *)

Definition ascii_letter (c : ascii) : bool :=
  between 65 90 c || between 97 122 c.

(** The texts of the form [^[A-Za-z][A-Za-z0-9_]*$], with or without one
    newline after them. *)
Definition identifier_text (s : string) : Prop :=
  exists c w,
    (s = String c w \/ s = String c (w ++ String newline "")%string) /\
    ascii_letter c = true /\
    forallb word_char (list_ascii_of_string w) = true.

Definition identifier (v : pyval) : Prop :=
  exists s, v = PStr s /\ identifier_text s.

(** A stored column type that is one of the three classes, or the name of
    a table registered at an index below [i]. *)
Definition refers_back (d : Database) (i : nat) (ty : pyval) : Prop :=
  is_type_marker ty = true \/
  exists t j, ty = PStr t /\ j < i /\ table_names d !! j = Some (PStr t).

(** The four lists have the same length. *)
Definition level (d : Database) (n : nat) : Prop :=
  length (table_names d) = n /\ length (table_col_count d) = n /\
  length (column d) = n /\ length (col_type d) = n.

(** The names and types recorded in the fields are those of a legal
    schema. *)
Definition well_formed (d : Database) : Prop :=
  NoDup (table_names d) /\ Forall identifier (table_names d) /\
  (forall i row, column d !! i = Some row ->
     exists names,
       row = with_placeholders names /\ NoDup names /\ Forall identifier names) /\
  (forall i tys ty, col_type d !! i = Some tys -> ty ∈ tys -> refers_back d i ty).

(** [d'] differs from [d] at most in the entries of [table_col_count],
    [column] and [col_type] at the index [table_count d]. *)
Definition same_but_current (d d' : Database) : Prop :=
  schema d' = schema d /\ table_names d' = table_names d /\
  table_count d' = table_count d /\ pk d' = pk d /\ version d' = version d /\
  length (table_col_count d') = length (table_col_count d) /\
  length (column d') = length (column d) /\
  length (col_type d') = length (col_type d) /\
  forall i, i <> table_count d ->
    table_col_count d' !! i = table_col_count d !! i /\
    column d' !! i = column d !! i /\
    col_type d' !! i = col_type d !! i.

(** A row-value checker that rejects every row by returning [False]. *)
Definition reject_all (table_name values : pyval) (names : list pyval)
    (counts : list nat) (types : list (list pyval)) : result pyval :=
  Ok (PBool false).

(** A list as the constructor hands it to a name check: names that a check
    accepted before, with or without the empty lists that a row of [column]
    holds between them. *)
Definition names_so_far (existing : list pyval) : Prop :=
  Forall (fun v => identifier v \/ v = PList []) existing.

(** * Properties *)

Example users_posts_run :
  __init__ users_posts =
  ([], (Ok tt,
        mkDatabase users_posts [PStr "users"; PStr "posts"] 2 [2; 1]
          [[PList []; PStr "name"; PList []; PStr "age"]; [PList []; PStr "author"]]
          [[PClass class_str; PClass class_int]; [PStr "users"]] 1 0)).
Proof. vm_compute. reflexivity. Qed.

(** ** The checks *)

Section Checks.

Implicit Types (s : string) (v name : pyval) (existing : list pyval).

Lemma table_name_check_None name existing v :
  table_name_check name existing = Ok v -> v = PNone.
Proof.
  unfold table_name_check. intros H.
  repeat (case_match; try discriminate). congruence.
Qed.

Lemma column_name_check_None name existing v :
  column_name_check name existing = Ok v -> v = PNone.
Proof.
  unfold column_name_check. intros H.
  repeat (case_match; try discriminate). congruence.
Qed.

Lemma column_type_check_None ty i existing v :
  column_type_check ty i existing = Ok v -> v = PNone.
Proof.
  unfold column_type_check. intros H.
  repeat (case_match; try discriminate); congruence.
Qed.

Lemma first_isalpha_get s c :
  String.get 0 s = Some c -> first_isalpha s = Ok (char_isalpha c).
Proof.
  unfold first_isalpha, getitem. intros ->. cbn.
  by rewrite andb_true_r.
Qed.

Lemma first_isalpha_empty : first_isalpha "" = Raise (IndexError "string index out of range").
Proof. reflexivity. Qed.

(** A character outside the class makes the pattern fail, unless it is a
    newline that ends the text. *)
Lemma re_match_word_outside s i c :
  String.get i s = Some c -> word_char c = false ->
  c <> newline \/ S i <> String.length s ->
  re_match_word s = false.
Proof.
  revert i. induction s as [|a s IH]; intros i Hget Hout Hpos; [discriminate|].
  cbn [re_match_word]. destruct i as [|i]; cbn in Hget.
  - injection Hget as ->. rewrite Hout.
    destruct (Ascii.eqb_spec c newline) as [->|Hne]; [|reflexivity].
    destruct Hpos as [Hpos|Hpos]; [congruence|].
    destruct s; [cbn in Hpos; lia | reflexivity].
  - destruct (word_char a).
    + apply (IH i); auto. cbn in Hpos. destruct Hpos; [left|right]; auto.
    + destruct s; [discriminate|]. by rewrite andb_false_r.
Qed.

Lemma duplicated_elem_of s existing :
  duplicated s existing = true <-> PStr s ∈ existing.
Proof.
  unfold duplicated. rewrite existsb_exists. split.
  - intros (v & Hin & Heq). destruct v; try discriminate.
    apply String.eqb_eq in Heq. subst. by apply list_elem_of_In.
  - intros Hin. exists (PStr s). split; [by apply list_elem_of_In|].
    cbn. apply String.eqb_refl.
Qed.

End Checks.

(** ** Running method bodies *)

Section Monad.

Context {A B : Type}.
Implicit Types (m : M A) (f : A -> M B) (d : Database).

Lemma bind_run m f d a d1 :
  m d = (Ok a, d1) -> bind m f d = f a d1.
Proof. unfold bind. by intros ->. Qed.

Lemma bind_raise m f d e d1 :
  m d = (Raise e, d1) -> bind m f d = (Raise e, d1).
Proof. unfold bind. by intros ->. Qed.

Lemma bind_Ok m f d b d' :
  bind m f d = (Ok b, d') ->
  exists a d1, m d = (Ok a, d1) /\ f a d1 = (Ok b, d').
Proof.
  unfold bind. destruct (m d) as [[a|e] d1]; [eauto | discriminate].
Qed.

End Monad.

Lemma for_each_app {A} (body : A -> M unit) (l1 l2 : list A) d :
  for_each body (l1 ++ l2) d = (for_each body l1 ;;; for_each body l2) d.
Proof.
  revert d. induction l1 as [|x l1 IH]; intros d; [reflexivity|].
  cbn [for_each app]. unfold bind in *.
  destruct (body x d) as [[[]|e] d1]; [|reflexivity].
  apply IH.
Qed.

Section Fields.

Implicit Types (d : Database) (x name ty : pyval).

Lemma column_append_run x d row :
  column d !! table_count d = Some row ->
  column_append x d =
  (Ok tt, set_column (<[table_count d := row ++ [x]]> (column d)) d).
Proof.
  intros H. unfold column_append, bind, gets, lift, modify, row_at.
  by rewrite H.
Qed.

Lemma column_append_out x d :
  column d !! table_count d = None ->
  column_append x d = (Raise (IndexError "list index out of range"), d).
Proof.
  intros H. unfold column_append, bind, gets, lift, modify, row_at.
  by rewrite H.
Qed.

Lemma col_type_append_run x d row :
  col_type d !! table_count d = Some row ->
  col_type_append x d =
  (Ok tt, set_col_type (<[table_count d := row ++ [x]]> (col_type d)) d).
Proof.
  intros H. unfold col_type_append, bind, gets, lift, modify, row_at.
  by rewrite H.
Qed.

Lemma col_type_append_out x d :
  col_type d !! table_count d = None ->
  col_type_append x d = (Raise (IndexError "list index out of range"), d).
Proof.
  intros H. unfold col_type_append, bind, gets, lift, modify, row_at.
  by rewrite H.
Qed.

Lemma table_col_count_incr_run d n :
  table_col_count d !! table_count d = Some n ->
  table_col_count_incr d =
  (Ok tt, set_table_col_count (<[table_count d := n + 1]> (table_col_count d)) d).
Proof.
  intros H. unfold table_col_count_incr, bind, gets, lift, modify, row_at.
  by rewrite H.
Qed.

Lemma table_col_count_incr_out d :
  table_col_count d !! table_count d = None ->
  table_col_count_incr d = (Raise (IndexError "list index out of range"), d).
Proof.
  intros H. unfold table_col_count_incr, bind, gets, lift, modify, row_at.
  by rewrite H.
Qed.

Lemma column_body_run columns d crow :
  column d !! table_count d = Some crow ->
  column_body columns d =
  let tc := table_count d in
  let d1 := set_column (<[tc := crow ++ [PList []]]> (column d)) d in
  match getitem columns 0 with
  | Raise e => (Raise e, d1)
  | Ok name =>
  match column_name_check name (crow ++ [PList []]) with
  | Raise e => (Raise e, d1)
  | Ok _ =>
  let d2 := set_column (<[tc := crow ++ [PList []; name]]> (column d)) d in
  match table_col_count d !! tc with
  | None => (Raise (IndexError "list index out of range"), d2)
  | Some n =>
  let d3 := set_table_col_count (<[tc := n + 1]> (table_col_count d)) d2 in
  match getitem columns 1 with
  | Raise e => (Raise e, d3)
  | Ok ty =>
  match column_type_check ty tc (table_names d) with
  | Raise e => (Raise e, d3)
  | Ok _ =>
  match col_type d !! tc with
  | None => (Raise (IndexError "list index out of range"), d3)
  | Some trow => (Ok tt, column_added name ty crow trow n d)
  end end end end end end.
Proof.
  intros Hc.
  assert (Hlt : table_count d < length (column d)) by (by eapply lookup_lt_Some).
  unfold column_body, column_append, col_type_append, table_col_count_incr,
    bind, lift, gets, modify, ret, row_at.
  cbn. rewrite Hc. cbn.
  destruct (getitem columns 0) as [name|e]; [|reflexivity].
  rewrite list_lookup_insert_eq by done.
  destruct (column_name_check name (crow ++ [PList []])) as [checked|e] eqn:Hn;
    [apply column_name_check_None in Hn as ->|reflexivity].
  cbn. rewrite list_lookup_insert_eq by done. cbn.
  rewrite list_insert_insert_eq, <- app_assoc. cbn [app].
  destruct (table_col_count d !! table_count d) as [n|]; [|reflexivity].
  cbn. destruct (getitem columns 1) as [ty|e]; [|reflexivity].
  destruct (column_type_check ty (table_count d) (table_names d))
    as [resolved|e] eqn:Ht;
    [apply column_type_check_None in Ht as ->|reflexivity].
  cbn. destruct (col_type d !! table_count d) as [trow|]; reflexivity.
Qed.

Lemma column_body_Ok columns d d' :
  column_body columns d = (Ok tt, d') ->
  exists name ty crow trow n,
    getitem columns 0 = Ok name /\ getitem columns 1 = Ok ty /\
    column d !! table_count d = Some crow /\
    col_type d !! table_count d = Some trow /\
    table_col_count d !! table_count d = Some n /\
    d' = column_added name ty crow trow n d.
Proof.
  intros H.
  destruct (column d !! table_count d) as [crow|] eqn:Hc.
  - rewrite (column_body_run _ _ _ Hc) in H. cbv zeta in H.
    repeat (case_match; try discriminate).
    injection H as <-. by do 5 eexists.
  - unfold column_body in H.
    by rewrite (bind_raise _ _ _ _ _ (column_append_out _ _ Hc)) in H.
Qed.

Lemma collect_length {A B} (f : A -> result B) (l : list A) l' :
  collect f l = Ok l' -> length l' = length l.
Proof.
  revert l'. induction l as [|x l IH]; intros l'; cbn.
  - by intros [= <-].
  - destruct (f x); [|discriminate]. cbn.
    destruct (collect f l) as [ys|]; [|discriminate]. cbn.
    intros [= <-]. cbn. f_equal. by apply IH.
Qed.

Lemma columns_added_nil crow trow n d :
  column d !! table_count d = Some crow ->
  col_type d !! table_count d = Some trow ->
  table_col_count d !! table_count d = Some n ->
  columns_added [] [] 0 crow trow n d = d.
Proof.
  intros Hc Ht Hn. unfold columns_added, with_placeholders. cbn.
  rewrite !app_nil_r, Nat.add_0_r, !list_insert_id by done.
  by destruct d.
Qed.

Lemma columns_added_cons name ty names tys k crow trow n d :
  columns_added names tys k (crow ++ [PList []; name]) (trow ++ [ty]) (n + 1)
    (column_added name ty crow trow n d) =
  columns_added (name :: names) (ty :: tys) (S k) crow trow n d.
Proof.
  unfold columns_added, column_added, with_placeholders. cbn.
  rewrite !list_insert_insert_eq, <- !app_assoc. cbn.
  by replace (n + 1 + k) with (n + S k) by lia.
Qed.

(** The inner loop, when it raises nothing. *)
Lemma column_loop_Ok items : forall d d' crow trow n,
  for_each column_body items d = (Ok tt, d') ->
  column d !! table_count d = Some crow ->
  col_type d !! table_count d = Some trow ->
  table_col_count d !! table_count d = Some n ->
  exists names tys,
    column_names items = Ok names /\ column_types items = Ok tys /\
    d' = columns_added names tys (length items) crow trow n d.
Proof.
  induction items as [|c items IH]; intros d d' crow trow n Hrun Hc Ht Hn.
  - injection Hrun as <-. exists [], []. cbn.
    by rewrite columns_added_nil.
  - cbn [for_each] in Hrun.
    apply bind_Ok in Hrun as ([] & d1 & Hbody & Hrest).
    apply column_body_Ok in Hbody
      as (name & ty & crow' & trow' & n' & H0 & H1 & Hc' & Ht' & Hn' & ->).
    rewrite Hc in Hc'. rewrite Ht in Ht'. rewrite Hn in Hn'.
    injection Hc' as <-. injection Ht' as <-. injection Hn' as <-.
    assert (Hlc := lookup_lt_Some _ _ _ Hc).
    assert (Hlt := lookup_lt_Some _ _ _ Ht).
    assert (Hln := lookup_lt_Some _ _ _ Hn).
    eapply IH in Hrest as (names & tys & Hnames & Htys & ->);
      [| by apply list_lookup_insert_eq ..].
    exists (name :: names), (ty :: tys).
    unfold column_names, column_types in *. cbn [collect length].
    rewrite H0, H1, Hnames, Htys. cbn.
    by rewrite columns_added_cons.
Qed.

End Fields.

(** ** The outer loop *)

Section Tables.

Implicit Types (d : Database) (tables table name : pyval).

Lemma table_body_run tables table d :
  table_body tables table d =
  match getitem table 0 with
  | Raise e => (Raise e, d)
  | Ok name =>
  match table_name_check name (table_names d) with
  | Raise e => (Raise e, d)
  | Ok _ =>
  match declared_columns tables (table_count d) with
  | Raise e => (Raise e, registered name d)
  | Ok cols =>
  match for_each column_body cols (registered name d) with
  | (Ok _, d2) => (Ok tt, set_table_count (table_count d2 + 1) d2)
  | (Raise e, d2) => (Raise e, d2)
  end end end end.
Proof.
  unfold table_body, declared_columns, rbind, bind, lift, gets, modify, ret.
  destruct (getitem table 0) as [name|e]; [|reflexivity].
  destruct (table_name_check name (table_names d)) as [checked|e] eqn:Hn;
    [apply table_name_check_None in Hn as ->|reflexivity].
  cbn. destruct (getitem tables (table_count d)) as [current|e]; [|reflexivity].
  destruct (getitem current 1) as [cols|e]; [|reflexivity].
  destruct (py_iter cols) as [items|e]; [|reflexivity].
  change (set_table_col_count _ _) with (registered name d).
  by destruct (for_each column_body items (registered name d)) as [[[]|e] d2].
Qed.

Lemma snoc_insert {A} (l : list A) (x y : A) k :
  length l = k -> <[k := x]> (l ++ [y]) = l ++ [x].
Proof.
  intros <-. rewrite insert_app_r_alt by lia. by rewrite Nat.sub_diag.
Qed.

(** A pass of the outer loop that raises nothing appends one entry to each
    of the four lists. *)
Lemma table_body_Ok tables table d d' k :
  table_body tables table d = (Ok tt, d') ->
  table_count d = k ->
  length (table_col_count d) = k -> length (column d) = k ->
  length (col_type d) = k ->
  exists name cols names tys,
    getitem table 0 = Ok name /\
    table_name_check name (table_names d) = Ok PNone /\
    declared_columns tables k = Ok cols /\
    column_names cols = Ok names /\ column_types cols = Ok tys /\
    d' = table_added name names tys (length cols) d.
Proof.
  rewrite table_body_run. intros Hrun Hk Hn Hc Ht.
  destruct (getitem table 0) as [name|]; [|discriminate].
  destruct (table_name_check name (table_names d)) as [checked|] eqn:Hcheck;
    [|discriminate].
  pose proof (table_name_check_None _ _ _ Hcheck) as ->.
  rewrite Hk in Hrun.
  destruct (declared_columns tables k) as [cols|]; [|discriminate].
  destruct (for_each column_body cols (registered name d))
    as [[[]|] d2] eqn:Hloop; [|discriminate].
  injection Hrun as <-.
  eapply (column_loop_Ok _ _ _ [] [] 0) in Hloop
    as (names & tys & Hnames & Htys & ->).
  - exists name, cols, names, tys. repeat split; try done.
    unfold table_added, columns_added, registered, set_table_count. cbn.
    rewrite Hk. by rewrite !snoc_insert.
  - cbn. rewrite Hk, <- Hc. apply list_lookup_middle. done.
  - cbn. rewrite Hk, <- Ht. apply list_lookup_middle. done.
  - cbn. rewrite Hk, <- Hn. apply list_lookup_middle. done.
Qed.

Lemma get_list_ascii (s : string) i :
  list_ascii_of_string s !! i = String.get i s.
Proof.
  revert i. induction s as [|c s IH]; intros [|i]; cbn; auto.
Qed.

(** A [for] loop over [tables] visits [tables[0]], [tables[1]], ... *)
Lemma iter_getitem tables items i x :
  py_iter tables = Ok items -> items !! i = Some x -> getitem tables i = Ok x.
Proof.
  destruct tables; cbn; try discriminate; intros [= <-] Hx;
    try by rewrite Hx.
  rewrite list_lookup_fmap, get_list_ascii in Hx.
  destruct (String.get i s); [|discriminate]. by injection Hx as <-.
Qed.

Lemma built_upto_table_added tables d k t name cols names tys :
  built_upto tables d k ->
  getitem tables k = Ok t -> getitem t 0 = Ok name ->
  declared_columns tables k = Ok cols ->
  column_names cols = Ok names -> column_types cols = Ok tys ->
  built_upto tables (table_added name names tys (length cols) d) (k + 1).
Proof.
  intros (Hk & Hln & Hlc & Hlr & Hlt & Hall) Ht Hname Hcols Hnames Htys.
  unfold built_upto, table_added. cbn. rewrite !length_app. cbn.
  repeat split; try lia.
  intros i Hi. destruct (decide (i = k)) as [->|Hne].
  - exists t, name, cols, names, tys. cbn.
    repeat split; try done; by apply list_lookup_middle.
  - destruct (Hall i) as (t' & name' & cols' & names' & tys' & H); [lia|].
    exists t', name', cols', names', tys'. cbn.
    rewrite !lookup_app_l by lia. exact H.
Qed.

(** The outer loop, when it raises nothing, records every item it visits
    and leaves the counters of rows alone. *)
Lemma table_loop_Ok tables items : forall d d' k,
  for_each (table_body tables) items d = (Ok tt, d') ->
  built_upto tables d k ->
  (forall j x, items !! j = Some x -> getitem tables (k + j) = Ok x) ->
  built_upto tables d' (k + length items) /\
  pk d' = pk d /\ version d' = version d.
Proof.
  induction items as [|table items IH]; intros d d' k Hrun Hinv Hitems.
  - injection Hrun as <-. by rewrite Nat.add_0_r.
  - cbn [for_each] in Hrun.
    apply bind_Ok in Hrun as ([] & d1 & Hbody & Hrest).
    pose proof Hinv as (Hk & _ & Hlc & Hlr & Hlt & _).
    eapply table_body_Ok in Hbody
      as (name & cols & names & tys & Hname & _ & Hcols & Hnames & Htys & ->);
      [|done..].
    eapply (IH _ _ (k + 1)) in Hrest as (Hinv' & Hpk & Hv).
    + cbn [length]. replace (k + S (length items)) with (k + 1 + length items) by lia.
      cbn in Hpk, Hv. split; [exact Hinv' | by split].
    + eapply built_upto_table_added; try done.
      rewrite <- (Nat.add_0_r k). by apply Hitems.
    + intros j x Hj. replace (k + 1 + j) with (k + S j) by lia.
      by apply Hitems.
Qed.

Lemma built_upto_fresh tables v : built_upto tables (set_schema v fresh) 0.
Proof. repeat split; try done. lia. Qed.

(** What a constructor that raised nothing leaves in the fields. *)
Lemma init_built tables printed d :
  __init__ tables = (printed, (Ok tt, d)) ->
  built_upto tables d (table_count d) /\ pk d = 1%Z /\ version d = 0%Z.
Proof.
  unfold __init__. destruct (iterable_check tables) as [out iterable] eqn:Hit.
  intros [= <- Hrun]. unfold iterable_check in Hit.
  destruct (py_iter tables) as [items|e] eqn:Hiter.
  - injection Hit as <- <-. cbn [ne_False] in Hrun.
    unfold bind, modify, lift in Hrun.
    eapply (table_loop_Ok _ _ _ _ 0) in Hrun as (Hinv & Hpk & Hv).
    + pose proof Hinv as (-> & _). split; [exact Hinv | by split].
    + apply built_upto_fresh.
    + intros j x Hj. by eapply iter_getitem.
  - destruct e; injection Hit as <- <-; cbn [ne_False] in Hrun.
    + injection Hrun as <-. split; [apply (built_upto_fresh _ (PTuple [])) | by split].
    + discriminate.
    + discriminate.
    + discriminate.
Qed.

End Tables.

(** ** Independence from [schema] and from the rest of the input *)

Section Blind.

Lemma blind_ret {A} (a : A) : schema_blind (ret a).
Proof. by intros v d. Qed.

Lemma blind_lift {A} (r : result A) : schema_blind (lift r).
Proof. by intros v d. Qed.

Lemma blind_gets {A} (g : Database -> A) :
  (forall v d, g (set_schema v d) = g d) -> schema_blind (gets g).
Proof. intros Hg v d. unfold gets. by rewrite Hg. Qed.

Lemma blind_modify (g : Database -> Database) :
  (forall v d, g (set_schema v d) = set_schema v (g d)) ->
  schema_blind (modify g).
Proof. intros Hg v d. unfold modify. by rewrite Hg. Qed.

Lemma blind_bind {A B} (m : M A) (f : A -> M B) :
  schema_blind m -> (forall a, schema_blind (f a)) -> schema_blind (bind m f).
Proof.
  intros Hm Hf v d. unfold bind. rewrite Hm.
  destruct (m d) as [[a|e] d1]; [apply Hf | reflexivity].
Qed.

Lemma blind_if {A} (b : bool) (m1 m2 : M A) :
  schema_blind m1 -> schema_blind m2 -> schema_blind (if b then m1 else m2).
Proof. by destruct b. Qed.

Lemma blind_for_each {A} (body : A -> M unit) items :
  (forall x, schema_blind (body x)) -> schema_blind (for_each body items).
Proof.
  intros Hbody. induction items as [|x items IH]; cbn [for_each].
  - apply blind_ret.
  - apply blind_bind; auto.
Qed.

End Blind.

Create HintDb blind.
#[local] Hint Resolve blind_ret blind_lift blind_bind blind_if blind_for_each : blind.
#[local] Hint Extern 1 (schema_blind (gets _)) =>
  apply blind_gets; reflexivity : blind.
#[local] Hint Extern 1 (schema_blind (modify _)) =>
  apply blind_modify; reflexivity : blind.

Lemma blind_column_body columns : schema_blind (column_body columns).
Proof.
  unfold column_body, column_append, col_type_append, table_col_count_incr.
  auto 20 with blind.
Qed.

#[local] Hint Resolve blind_column_body : blind.

Lemma blind_table_body tables table : schema_blind (table_body tables table).
Proof. unfold table_body. auto 20 with blind. Qed.

Section Reach.

Implicit Types (d : Database) (pre post cpre cpost : list pyval).

Lemma column_loop_same items : forall d d',
  for_each column_body items d = (Ok tt, d') ->
  table_count d' = table_count d /\ table_names d' = table_names d.
Proof.
  induction items as [|c items IH]; intros d d' Hrun.
  - by injection Hrun as <-.
  - cbn [for_each] in Hrun.
    apply bind_Ok in Hrun as ([] & d1 & Hbody & Hrest).
    apply column_body_Ok in Hbody as (? & ? & ? & ? & ? & _ & _ & _ & _ & _ & ->).
    by apply IH in Hrest as [-> ->].
Qed.

Lemma table_body_count tables table d d' :
  table_body tables table d = (Ok tt, d') -> table_count d' = table_count d + 1.
Proof.
  rewrite table_body_run. intros H.
  destruct (getitem table 0) as [name|]; [|discriminate].
  destruct (table_name_check name (table_names d)); [|discriminate].
  destruct (declared_columns tables (table_count d)) as [cols|]; [|discriminate].
  destruct (for_each column_body cols (registered name d))
    as [[[]|] d2] eqn:Hloop; [|discriminate].
  injection H as <-. apply column_loop_same in Hloop as [Hcount _].
  cbn. by rewrite Hcount.
Qed.

(** The outer loop reads [tables] only at the indices it reaches. *)
Lemma table_loop_local tables1 tables2 items : forall d,
  (forall j, j < length items ->
     declared_columns tables1 (table_count d + j) =
     declared_columns tables2 (table_count d + j)) ->
  for_each (table_body tables1) items d = for_each (table_body tables2) items d.
Proof.
  induction items as [|table items IH]; intros d Hsame; [reflexivity|].
  cbn [for_each]. unfold bind.
  assert (Hbody : table_body tables1 table d = table_body tables2 table d).
  { rewrite !table_body_run. specialize (Hsame 0). cbn in Hsame.
    rewrite Nat.add_0_r in Hsame. rewrite Hsame by lia. reflexivity. }
  rewrite <- Hbody.
  destruct (table_body tables1 table d) as [[[]|e] d1] eqn:Hrun; [|reflexivity].
  apply IH. intros j Hj. apply table_body_count in Hrun. rewrite Hrun.
  replace (table_count d + 1 + j) with (table_count d + S j) by lia.
  apply Hsame. cbn. lia.
Qed.

Lemma declared_columns_prefix pre more1 more2 j :
  j < length pre ->
  declared_columns (PList (pre ++ more1)) j =
  declared_columns (PList (pre ++ more2)) j.
Proof.
  intros Hj. unfold declared_columns. cbn.
  by rewrite !lookup_app_l.
Qed.

(** The tables before a given one are processed in the same way whatever
    follows them in the input. *)
Lemma prefix_run pre more1 more2 d :
  for_each (table_body (PList (pre ++ more1))) pre
    (set_schema (PList (pre ++ more1)) fresh) = (Ok tt, d) ->
  for_each (table_body (PList (pre ++ more2))) pre
    (set_schema (PList (pre ++ more2)) fresh) =
  (Ok tt, set_schema (PList (pre ++ more2)) d).
Proof.
  intros Hrun.
  rewrite (table_loop_local _ (PList (pre ++ more2))) in Hrun
    by (intros j Hj; by apply declared_columns_prefix).
  pose proof (blind_for_each _ pre (blind_table_body (PList (pre ++ more2)))
                (PList (pre ++ more2)) (set_schema (PList (pre ++ more1)) fresh))
    as Hblind.
  rewrite Hrun in Hblind. exact Hblind.
Qed.

Lemma declared_columns_at pre name cols post :
  declared_columns (PList (pre ++ PTuple [name; PList cols] :: post))
    (length pre) = Ok cols.
Proof.
  unfold declared_columns. cbn. by rewrite list_lookup_middle.
Qed.

Lemma init_list (l : list pyval) :
  __init__ (PList l) =
  ([], for_each (table_body (PList l)) l (set_schema (PList l) fresh)).
Proof. reflexivity. Qed.

(** A definition list that builds up to the name of some column, with a
    primitive type for that column, reaches the resolution of whatever
    type is declared there instead; if that resolution raises, the
    exception ends the construction with the table registered and not
    counted. *)
Lemma type_check_reached pre name cpre cname ty cpost post printed d e :
  __init__ (PList (pre ++ [PTuple [PStr name;
              PList (cpre ++ [PTuple [cname; PClass class_int]])]])) =
    (printed, (Ok tt, d)) ->
  column_type_check ty (length pre) (table_names d) = Raise e ->
  exists d',
    __init__ (PList (pre ++ PTuple [PStr name;
                PList (cpre ++ PTuple [cname; ty] :: cpost)] :: post)) =
      ([], (Raise e, d')) /\
    table_count d' = length pre /\ table_names d' = table_names d.
Proof.
  rewrite !init_list. intros [= <- Hrun] Hty.
  set (good := PTuple [PStr name; PList (cpre ++ [PTuple [cname; PClass class_int]])]) in *.
  set (bad := PTuple [PStr name; PList (cpre ++ PTuple [cname; ty] :: cpost)]).
  rewrite for_each_app in Hrun.
  apply bind_Ok in Hrun as ([] & d_pre & Hpre & Hlast).
  cbn [for_each] in Hlast.
  apply bind_Ok in Hlast as ([] & d1 & Hgood & [= ->]).
  (* the tables before *)
  pose proof Hpre as Hinv.
  eapply (table_loop_Ok _ _ _ _ 0) in Hinv as [Hinv _];
    [| apply built_upto_fresh
     | intros j x Hj; cbn; by rewrite (lookup_app_l_Some _ _ _ _ Hj)].
  destruct Hinv as (Hk & Hln & Hlc & Hlr & Hlt & _). cbn in Hk, Hln, Hlc, Hlr, Hlt.
  apply (prefix_run _ _ (bad :: post)) in Hpre.
  rewrite for_each_app, (bind_run _ _ _ _ _ Hpre). cbn [for_each].
  (* the table itself, in the run that succeeds *)
  rewrite table_body_run in Hgood. cbn [good getitem lookup list_lookup] in Hgood.
  destruct (table_name_check (PStr name) (table_names d_pre)) as [checked|] eqn:Hname;
    [|discriminate].
  rewrite Hk in Hgood. unfold good in Hgood.
  rewrite declared_columns_at in Hgood.
  destruct (for_each column_body _ (registered (PStr name) d_pre))
    as [[[]|] d2] eqn:Hcols; [|discriminate].
  injection Hgood as <-.
  rewrite for_each_app in Hcols.
  apply bind_Ok in Hcols as ([] & d_cp & Hcpre & Hc).
  cbn [for_each] in Hc. apply bind_Ok in Hc as ([] & d3 & Hc & [= ->]).
  pose proof (column_loop_same _ _ _ Hcpre) as [Hcount Hnames].
  cbn in Hcount, Hnames.
  (* the column itself, in the run that succeeds *)
  destruct (column d_cp !! table_count d_cp) as [crow|] eqn:Hrow;
    [| unfold column_body in Hc;
       by rewrite (bind_raise _ _ _ _ _ (column_append_out _ _ Hrow)) in Hc].
  rewrite (column_body_run _ _ _ Hrow) in Hc. cbv zeta in Hc.
  cbn [getitem lookup list_lookup] in Hc.
  destruct (column_name_check cname (crow ++ [PList []])) as [?|] eqn:Hcn;
    [|discriminate].
  destruct (table_col_count d_cp !! table_count d_cp) as [n|] eqn:Hn;
    [|discriminate].
  cbn in Hc.
  destruct (col_type d_cp !! table_count d_cp) as [trow|]; [|discriminate].
  injection Hc as <-. cbn in Hty. rewrite <- Hk, <- Hcount in Hty.
  (* the run on the whole input *)
  set (T := PList (pre ++ bad :: post)) in *.
  pose proof (blind_for_each _ cpre blind_column_body T
                (registered (PStr name) d_pre)) as Hblind.
  rewrite Hcpre in Hblind.
  assert (Hbad : table_body T bad (set_schema T d_pre) =
                 (Raise e,
                  set_table_col_count
                    (<[table_count d_cp := n + 1]> (table_col_count d_cp))
                    (set_column
                       (<[table_count d_cp := crow ++ [PList []; cname]]>
                          (column d_cp))
                       (set_schema T d_cp)))).
  { rewrite table_body_run. cbn [bad getitem lookup list_lookup].
    cbn [table_names table_count set_schema]. rewrite Hname, Hk.
    unfold T, bad. rewrite declared_columns_at. fold bad. fold T.
    rewrite for_each_app.
    change (registered (PStr name) (set_schema T d_pre))
      with (set_schema T (registered (PStr name) d_pre)).
    rewrite (bind_run _ _ _ _ _ Hblind). cbn [for_each].
    erewrite bind_raise; [reflexivity|].
    rewrite (column_body_run _ _ crow) by exact Hrow. cbv zeta.
    cbn [getitem lookup list_lookup table_names table_count set_schema
         table_col_count col_type column].
    by rewrite Hcn, Hn, Hty. }
  eexists. split; [|split].
  - by rewrite (bind_raise _ _ _ _ _ Hbad).
  - cbn. by rewrite Hcount.
  - reflexivity.
Qed.

End Reach.

(** * The claims *)

(** ** Insert *)

Section InsertProperties.

Variable insert_check :
  pyval -> pyval -> list pyval -> list nat -> list (list pyval) -> result pyval.

Lemma insert_run table_name values d :
  insert insert_check table_name values d =
  match insert_check table_name values (table_names d) (table_col_count d)
          (col_type d) with
  | Raise e => (Raise e, d)
  | Ok checked =>
      if ne_False checked then
        (Ok (PTuple [PInt (pk d + 1); PInt (version d)]), set_pk (pk d + 1)%Z d)
      else (Ok (PTuple [PInt (pk d); PInt (version d)]), d)
  end.
Proof.
  unfold insert, bind, gets, lift, modify, ret.
  destruct (insert_check _ _ _ _ _) as [checked|]; [|reflexivity].
  by destruct (ne_False checked).
Qed.

(** No method changes [version] once the constructor has set it to 0. *)
Lemma handle_version d : handle insert_check d -> version d = 0%Z.
Proof.
  induction 1 as [tables printed d Hinit | d t v r d' _ IH Hins].
  - by apply init_built in Hinit as (_ & _ & ?).
  - rewrite insert_run in Hins.
    destruct (insert_check _ _ _ _ _) as [checked|];
      [destruct (ne_False checked)|]; by injection Hins as _ <-.
Qed.

(** C1. On a handle, an [insert] whose values pass the row check returns
    the pair of the row counter after its increment and of the version 0;
    a second such [insert] on the same handle returns a strictly larger
    counter, again with version 0. *)
Theorem insert_returns_next_pk d t1 v1 c1 :
  handle insert_check d ->
  insert_check t1 v1 (table_names d) (table_col_count d) (col_type d) = Ok c1 ->
  ne_False c1 = true ->
  exists d1,
    insert insert_check t1 v1 d = (Ok (PTuple [PInt (pk d + 1); PInt 0]), d1) /\
    pk d1 = (pk d + 1)%Z /\
    forall t2 v2 c2,
      insert_check t2 v2 (table_names d1) (table_col_count d1) (col_type d1)
        = Ok c2 ->
      ne_False c2 = true ->
      exists p2 d2,
        insert insert_check t2 v2 d1 = (Ok (PTuple [PInt p2; PInt 0]), d2) /\
        p2 = (pk d1 + 1)%Z /\ (pk d + 1 < p2)%Z.
Proof.
  intros Hd Hc1 Hne1. pose proof (handle_version _ Hd) as Hv.
  eexists. split; [|split].
  - rewrite insert_run, Hc1, Hne1, Hv. reflexivity.
  - reflexivity.
  - intros t2 v2 c2 Hc2 Hne2. do 2 eexists. split; [|split].
    + rewrite insert_run, Hc2, Hne2. cbn. rewrite Hv. reflexivity.
    + reflexivity.
    + cbn. lia.
Qed.

End InsertProperties.

Lemma insert_returns_next_pk_witness :
  let d := fields (__init__ users_posts) in
  handle accept_all d /\
  accept_all (PStr "users") (PList [PStr "ann"; PInt 30])
    (table_names d) (table_col_count d) (col_type d) = Ok PNone /\
  ne_False PNone = true /\
  exists d1,
    insert accept_all (PStr "users") (PList [PStr "ann"; PInt 30]) d =
      (Ok (PTuple [PInt 2; PInt 0]), d1) /\
    exists d2,
      insert accept_all (PStr "users") (PList [PStr "bob"; PInt 41]) d1 =
        (Ok (PTuple [PInt 3; PInt 0]), d2).
Proof.
  intros d.
  assert (Hd : handle accept_all d)
    by (apply (handle_new _ users_posts []); vm_compute; reflexivity).
  split; [exact Hd|]. split; [reflexivity|]. split; [reflexivity|].
  destruct (insert_returns_next_pk accept_all d (PStr "users")
              (PList [PStr "ann"; PInt 30]) PNone Hd eq_refl eq_refl)
    as (d1 & H1 & Hpk1 & Hnext).
  exists d1. split; [exact H1|].
  destruct (Hnext (PStr "users") (PList [PStr "bob"; PInt 41]) PNone eq_refl eq_refl)
    as (p2 & d2 & H2 & -> & _).
  exists d2. rewrite H2, Hpk1. reflexivity.
Defined.

(** ** Construction on particular inputs *)

(** C2, as stated, fails: on the integer [5], which cannot be traversed, the
    constructor raises nothing, so its outcome is no failure of any kind. *)
Lemma not_iterable_counterexample :
  py_iter (PInt 5) = Raise (TypeError "'int' object is not iterable") /\
  outcome (__init__ (PInt 5)) = Ok tt /\
  ~ fails_with (outcome (__init__ (PInt 5))) NotIterable.
Proof. repeat split. intros []. Qed.

(** C2, amended.  When the input cannot be traversed, [iterable_check]
    reports it by printing "item is not iterable" and returning [False]; the
    constructor then processes no table definition and raises nothing: it
    returns with the fields as first initialised, so with an empty schema. *)
Theorem not_iterable_builds_nothing tables e :
  py_iter tables = Raise e ->
  iterable_check tables = (["item is not iterable"], PBool false) /\
  __init__ tables = (["item is not iterable"], (Ok tt, fresh)).
Proof.
  intros Hiter.
  assert (Hcheck : iterable_check tables = (["item is not iterable"], PBool false)).
  { unfold iterable_check. destruct tables; cbn in *; try discriminate; done. }
  split; [exact Hcheck|]. unfold __init__. by rewrite Hcheck.
Qed.

Lemma not_iterable_builds_nothing_witness :
  py_iter (PInt 5) = Raise (TypeError "'int' object is not iterable") /\
  iterable_check (PInt 5) = (["item is not iterable"], PBool false) /\
  __init__ (PInt 5) =
    (["item is not iterable"], (Ok tt, mkDatabase (PTuple []) [] 0 [] [] [] 1 0)).
Proof.
  split; [reflexivity|].
  exact (not_iterable_builds_nothing (PInt 5) _ eq_refl).
Defined.

(** C3.  The two-table example builds: the table count is 2, the table names
    are "users" then "posts", and the type stored for the only column of
    "posts", named "author", is the string "users", which the resolver
    accepts as a reference to the table "users". *)
Theorem users_posts_built :
  exists d,
    __init__ users_posts = ([], (Ok tt, d)) /\
    table_count d = 2 /\
    table_names d = [PStr "users"; PStr "posts"] /\
    column d !! 1 = Some [PList []; PStr "author"] /\
    col_type d !! 1 = Some [PStr "users"] /\
    column_type_check (PStr "users") 1 (table_names d) = Ok PNone /\
    foreign_key_target (PStr "users") = Some "users".
Proof.
  eexists. split; [apply users_posts_run|]. by repeat split.
Qed.

(** ** Identifier validation *)

(** C5, as stated, fails: "1$" contains "$", outside the class, and is
    rejected for its first character instead. *)
Lemma invalid_characters_counterexample :
  String.get 1 "1$" = Some "$"%char /\ word_char "$" = false /\
  table_name_check (PStr "1$") [] =
    Raise (ValueError "table name must start with a letter") /\
  ~ fails_with (table_name_check (PStr "1$") []) InvalidCharacters.
Proof. repeat split. intros [=]. Qed.

(** C5, amended.  A string whose first character is alphabetic and which
    has, anywhere but as a final newline, a character outside
    [[A-Za-z0-9_]] is rejected with kind InvalidCharacters, as a table name
    and as a column name. *)
Theorem invalid_characters_rejected (s : string) (existing : list pyval)
    (c0 c : ascii) (i : nat) :
  String.get 0 s = Some c0 -> char_isalpha c0 = true ->
  String.get i s = Some c -> word_char c = false ->
  c <> newline \/ S i <> String.length s ->
  fails_with (table_name_check (PStr s) existing) InvalidCharacters /\
  fails_with (column_name_check (PStr s) existing) InvalidCharacters.
Proof.
  intros H0 Halpha Hi Hout Hpos.
  unfold table_name_check, column_name_check.
  rewrite (first_isalpha_get _ _ H0), Halpha,
    (re_match_word_outside _ _ _ Hi Hout Hpos).
  by split.
Qed.

Lemma invalid_characters_rejected_witness :
  String.get 0 "a-b" = Some "a"%char /\ char_isalpha "a" = true /\
  String.get 1 "a-b" = Some "-"%char /\ word_char "-" = false /\
  fails_with (table_name_check (PStr "a-b") []) InvalidCharacters /\
  fails_with (column_name_check (PStr "a-b") [PList []]) InvalidCharacters.
Proof.
  assert (Hpos : "-"%char <> newline \/ 2 <> String.length "a-b")
    by (left; discriminate).
  do 4 (split; [reflexivity|]).
  split.
  - exact (proj1 (invalid_characters_rejected "a-b" [] "a" "-" 1
                    eq_refl eq_refl eq_refl eq_refl Hpos)).
  - exact (proj2 (invalid_characters_rejected "a-b" [PList []] "a" "-" 1
                    eq_refl eq_refl eq_refl eq_refl Hpos)).
Defined.

(** C6 does not hold of the code.  On the empty string both checks evaluate
    [name[0]] before anything else, which raises [IndexError]: the failure is
    not of kind MustStartWithLetter. *)
Theorem empty_name_index_error (existing : list pyval) :
  table_name_check (PStr "") existing =
    Raise (IndexError "string index out of range") /\
  column_name_check (PStr "") existing =
    Raise (IndexError "string index out of range") /\
  ~ fails_with (table_name_check (PStr "") existing) MustStartWithLetter /\
  ~ fails_with (column_name_check (PStr "") existing) MustStartWithLetter.
Proof. repeat split; intros [=]. Qed.

(** ** Foreign keys *)

Lemma init_list_built (l : list pyval) printed d :
  __init__ (PList l) = (printed, (Ok tt, d)) -> built_upto (PList l) d (length l).
Proof.
  rewrite init_list. intros [= _ Hrun].
  eapply (table_loop_Ok _ _ _ _ 0) in Hrun as [Hinv _]; [exact Hinv | |].
  - apply built_upto_fresh.
  - intros j x Hj. cbn. by rewrite Hj.
Qed.

(** In a list that built up to the name of a column of its last table, the
    entry of [table_names] at the index of that table is the table's name. *)
Lemma last_table_name pre name cols printed d :
  __init__ (PList (pre ++ [PTuple [PStr name; PList cols]])) =
    (printed, (Ok tt, d)) ->
  table_names d !! length pre = Some (PStr name) /\
  length (table_names d) = S (length pre).
Proof.
  intros Hinit. apply init_list_built in Hinit.
  rewrite length_app in Hinit. cbn in Hinit.
  destruct Hinit as (_ & Hlen & _ & _ & _ & Hall). split; [|lia].
  destruct (Hall (length pre)) as (t & nm & _ & _ & _ & Ht & Hnm & _ & _ & _ & Hname & _);
    [lia|].
  cbn in Ht. rewrite list_lookup_middle in Ht by done. injection Ht as <-.
  cbn in Hnm. by injection Hnm as <-.
Qed.

(** C4, as stated, fails: the only column of table "a" has the type "a",
    but its name "1" is rejected first. *)
Lemma self_reference_counterexample :
  getitem bad_column_name 0 =
    Ok (PTuple [PStr "a"; PList [PTuple [PStr "1"; PStr "a"]]]) /\
  outcome (__init__ bad_column_name) =
    Raise (ValueError "column name must start with a letter") /\
  ~ fails_with (outcome (__init__ bad_column_name)) SelfReferencingForeignKey.
Proof. repeat split. intros [=]. Qed.

(** C4, amended.  Take a table definition with a column whose declared type
    is the string equal to the table's own name, and suppose that every
    check before the resolution of that type passes: the definitions up to
    that column, with a primitive type in its place, build.  Then
    construction fails with kind SelfReferencingForeignKey, whatever follows
    the column; the table's name is registered and the table count is not
    incremented for it. *)
Theorem self_reference_rejected pre name cpre cname cpost post printed d :
  __init__ (PList (pre ++ [PTuple [PStr name;
              PList (cpre ++ [PTuple [cname; PClass class_int]])]])) =
    (printed, (Ok tt, d)) ->
  let run :=
    __init__ (PList (pre ++ PTuple [PStr name;
                PList (cpre ++ PTuple [cname; PStr name] :: cpost)] :: post)) in
  fails_with (outcome run) SelfReferencingForeignKey /\
  table_count (fields run) = length pre /\
  length (table_names (fields run)) = S (length pre).
Proof.
  intros Hinit run.
  pose proof (last_table_name _ _ _ _ _ Hinit) as [Hname Hlen].
  destruct (type_check_reached pre name cpre cname (PStr name) cpost post
              printed d
              (IntegrityError "foreign key causes a cycle: references to current table")
              Hinit)
    as (d' & Hrun & Hcount & Hnames).
  - unfold column_type_check, row_at. rewrite Hname. cbn.
    by rewrite String.eqb_refl.
  - subst run. rewrite Hrun. cbn. by rewrite Hnames.
Qed.

Lemma self_reference_rejected_witness :
  __init__ (PList [PTuple [PStr "a";
              PList [PTuple [PStr "self_ref"; PClass class_int]]]]) =
    ([], (Ok tt,
          mkDatabase
            (PList [PTuple [PStr "a";
                      PList [PTuple [PStr "self_ref"; PClass class_int]]]])
            [PStr "a"] 1 [1] [[PList []; PStr "self_ref"]] [[PClass class_int]]
            1 0)) /\
  fails_with (outcome (__init__ self_ref)) SelfReferencingForeignKey /\
  table_count (fields (__init__ self_ref)) = 0 /\
  length (table_names (fields (__init__ self_ref))) = 1.
Proof.
  split; [vm_compute; reflexivity|].
  exact (self_reference_rejected [] "a" [] (PStr "self_ref") [] [] _ _ eq_refl).
Defined.

Lemma not_among_names (t : string) (names : list pyval) :
  PStr t ∉ names -> existsb (str_eq t) names = false.
Proof.
  intros Hnot. apply not_true_is_false. intros Hex.
  by apply Hnot, duplicated_elem_of.
Qed.

(** C7.  When a column type is a string that is neither the name of the
    owning table nor among the table names accumulated so far, its
    resolution fails with kind UnknownForeignKeyTarget.  During construction
    the names accumulated so far are those of the tables up to the owning
    one, so a type naming a table declared later fails this way, whatever
    the rest of the input declares; the example with "posts" before "users"
    does. *)
Theorem unknown_foreign_key_target :
  (forall (t : string) (table_index : nat) (names : list pyval) (owner : pyval),
     names !! table_index = Some owner ->
     PStr t <> owner -> PStr t ∉ names ->
     fails_with (column_type_check (PStr t) table_index names)
       UnknownForeignKeyTarget) /\
  (forall pre name cpre cname t cpost post printed d,
     __init__ (PList (pre ++ [PTuple [PStr name;
                 PList (cpre ++ [PTuple [cname; PClass class_int]])]])) =
       (printed, (Ok tt, d)) ->
     PStr t ∉ table_names d ->
     fails_with
       (outcome
          (__init__ (PList (pre ++ PTuple [PStr name;
                       PList (cpre ++ PTuple [cname; PStr t] :: cpost)] :: post))))
       UnknownForeignKeyTarget) /\
  fails_with (outcome (__init__ forward_ref)) UnknownForeignKeyTarget.
Proof.
  assert (Hcheck : forall (t : string) i names owner,
            names !! i = Some owner -> PStr t <> owner -> PStr t ∉ names ->
            column_type_check (PStr t) i names =
            Raise (IntegrityError "foreign key references a nonexistent table")).
  { intros t i names owner Hi Hne Hnot.
    unfold column_type_check, row_at. rewrite Hi.
    rewrite (not_among_names _ _ Hnot). cbn.
    destruct (str_eq t owner) eqn:Heq; [|reflexivity].
    destruct owner; try discriminate. apply String.eqb_eq in Heq. by subst. }
  split; [|split].
  - intros t i names owner Hi Hne Hnot. by rewrite (Hcheck t i names owner).
  - intros pre name cpre cname t cpost post printed d Hinit Hnot.
    pose proof (last_table_name _ _ _ _ _ Hinit) as [Hname _].
    destruct (type_check_reached pre name cpre cname (PStr t) cpost post
                printed d
                (IntegrityError "foreign key references a nonexistent table")
                Hinit)
      as (d' & -> & _).
    + apply (Hcheck t _ _ (PStr name)); [done| |done].
      intros [= ->]. apply Hnot. by eapply list_elem_of_lookup_2.
    + reflexivity.
  - reflexivity.
Qed.

Lemma unknown_foreign_key_target_witness :
  [PStr "posts"] !! 0 = Some (PStr "posts") /\
  fails_with (column_type_check (PStr "users") 0 [PStr "posts"])
    UnknownForeignKeyTarget /\
  fails_with
    (outcome
       (__init__
          (PList [PTuple [PStr "posts";
                    PList [PTuple [PStr "author"; PStr "users"];
                           PTuple [PStr "title"; PClass class_str]]];
                  PTuple [PStr "users"; PList []]])))
    UnknownForeignKeyTarget.
Proof.
  destruct unknown_foreign_key_target as (Hresolve & Hbuild & _).
  split; [reflexivity|]. split.
  - apply (Hresolve "users" 0 [PStr "posts"] (PStr "posts")).
    + reflexivity.
    + discriminate.
    + intros Hin. apply list_elem_of_singleton in Hin. discriminate.
  - apply (Hbuild [] "posts" [] (PStr "author") "users"
             [PTuple [PStr "title"; PClass class_str]]
             [PTuple [PStr "users"; PList []]] [] _ eq_refl).
    cbn. intros Hin. apply list_elem_of_singleton in Hin. discriminate.
Defined.

(** ** The arrays of a built schema *)

Section Rows.

Implicit Types (names row : list pyval).

Lemma with_placeholders_length names :
  length (with_placeholders names) = 2 * length names.
Proof.
  unfold with_placeholders. induction names as [|n names IH]; cbn in *; lia.
Qed.

Lemma with_placeholders_lookup names j name :
  names !! j = Some name ->
  with_placeholders names !! (2 * j) = Some (PList []) /\
  with_placeholders names !! (2 * j + 1) = Some name.
Proof.
  unfold with_placeholders. revert j.
  induction names as [|n names IH]; intros [|j] Hj; try discriminate.
  - by injection Hj as ->.
  - replace (2 * S j) with (S (S (2 * j))) by lia. cbn. by apply IH.
Qed.

Lemma collect_lookup {A B} (f : A -> result B) (l : list A) l' j x :
  collect f l = Ok l' -> l !! j = Some x ->
  exists y, f x = Ok y /\ l' !! j = Some y.
Proof.
  revert l' j. induction l as [|a l IH]; intros l' j; [done|]. cbn.
  destruct (f a) as [b|] eqn:Hfa; [|discriminate]. cbn.
  destruct (collect f l) as [ys|]; [|discriminate]. cbn.
  intros [= <-]. destruct j as [|j]; cbn.
  - intros [= <-]. eauto.
  - by apply IH.
Qed.

End Rows.

(** C9.  After a construction that raised nothing, the row of [column] of
    every table is not the sequence of its column names as such: it holds,
    for each declared column in order, an empty list and then the name, so
    its length is twice the number of declared columns, which is also twice
    the table's entry in [table_col_count]; it differs from the sequence of
    names as soon as the table declares a column. *)
Theorem column_rows_interleaved tables printed d i :
  __init__ tables = (printed, (Ok tt, d)) ->
  i < table_count d ->
  exists cols names row,
    declared_columns tables i = Ok cols /\
    column_names cols = Ok names /\
    column d !! i = Some row /\
    row = with_placeholders names /\
    (forall j name, names !! j = Some name ->
       row !! (2 * j) = Some (PList []) /\ row !! (2 * j + 1) = Some name) /\
    length row = 2 * length cols /\
    table_col_count d !! i = Some (length cols) /\
    (cols <> [] -> row <> names).
Proof.
  intros Hinit Hi. apply init_built in Hinit as ((_ & _ & _ & _ & _ & Hall) & _).
  destruct (Hall i Hi)
    as (t & name & cols & names & tys & _ & _ & Hcols & Hnames & _ & _ & Hcount & Hrow & _).
  pose proof (collect_length _ _ _ Hnames) as Hlen.
  exists cols, names, (with_placeholders names).
  repeat split; try done.
  - by eapply with_placeholders_lookup.
  - by eapply with_placeholders_lookup.
  - by rewrite with_placeholders_length, Hlen.
  - intros Hne Heq. apply (f_equal length) in Heq.
    rewrite with_placeholders_length, Hlen in Heq.
    destruct cols; [done | cbn in Heq; lia].
Qed.

Lemma column_rows_interleaved_witness :
  __init__ users_posts =
    ([], (Ok tt,
          mkDatabase users_posts [PStr "users"; PStr "posts"] 2 [2; 1]
            [[PList []; PStr "name"; PList []; PStr "age"];
             [PList []; PStr "author"]]
            [[PClass class_str; PClass class_int]; [PStr "users"]] 1 0)) /\
  0 < 2 /\
  exists row,
    column (fields (__init__ users_posts)) !! 0 = Some row /\ length row = 4.
Proof.
  split; [vm_compute; reflexivity|]. split; [lia|].
  destruct (column_rows_interleaved users_posts [] _ 0 users_posts_run)
    as (cols & names & row & Hcols & _ & Hrow & _ & _ & Hlen & _); [cbn; lia|].
  exists row. split; [exact Hrow|].
  injection Hcols as <-. exact Hlen.
Defined.

(** C10.  After a construction that raised nothing, the four lists of the
    schema have the table count as their length, and for every table index
    the entry of [table_col_count] is the number of column definitions
    declared for that table and the row of [col_type] holds their declared
    types in declaration order. *)
Theorem parallel_arrays_agree tables printed d :
  __init__ tables = (printed, (Ok tt, d)) ->
  length (table_names d) = table_count d /\
  length (table_col_count d) = table_count d /\
  length (column d) = table_count d /\
  length (col_type d) = table_count d /\
  forall i, i < table_count d ->
    exists cols tys,
      declared_columns tables i = Ok cols /\
      table_col_count d !! i = Some (length cols) /\
      col_type d !! i = Some tys /\
      length tys = length cols /\
      forall j c, cols !! j = Some c ->
        exists ty, getitem c 1 = Ok ty /\ tys !! j = Some ty.
Proof.
  intros Hinit.
  apply init_built in Hinit as ((_ & Hn & Hc & Hr & Ht & Hall) & _).
  repeat split; try done.
  intros i Hi.
  destruct (Hall i Hi)
    as (t & name & cols & names & tys & _ & _ & Hcols & _ & Htys & _ & Hcount & _ & Hrow).
  exists cols, tys. repeat split; try done.
  - by eapply collect_length.
  - intros j c Hj. by eapply (collect_lookup _ _ _ _ _ Htys).
Qed.

Lemma parallel_arrays_agree_witness :
  __init__ users_posts =
    ([], (Ok tt,
          mkDatabase users_posts [PStr "users"; PStr "posts"] 2 [2; 1]
            [[PList []; PStr "name"; PList []; PStr "age"];
             [PList []; PStr "author"]]
            [[PClass class_str; PClass class_int]; [PStr "users"]] 1 0)) /\
  length (table_names (fields (__init__ users_posts))) = 2 /\
  length (col_type (fields (__init__ users_posts))) = 2.
Proof.
  split; [vm_compute; reflexivity|].
  destruct (parallel_arrays_agree users_posts [] _ users_posts_run)
    as (Hn & _ & _ & Ht & _).
  split; [exact Hn | exact Ht].
Defined.

(** * Further properties of the checks *)

Section Accepted.

Implicit Types (s w : string) (c : ascii) (existing : list pyval).

Lemma alpha_word_letter c :
  char_isalpha c && word_char c = ascii_letter c.
Proof. destruct c as [[] [] [] [] [] [] [] []]; reflexivity. Qed.

Lemma newline_not_word : word_char newline = false.
Proof. reflexivity. Qed.

(** The pattern matches the runs of class characters and those followed by
    one newline. *)
Lemma re_match_word_spec w :
  re_match_word w = true <->
  forallb word_char (list_ascii_of_string w) = true \/
  exists w', w = (w' ++ String newline "")%string /\
             forallb word_char (list_ascii_of_string w') = true.
Proof.
  induction w as [|a w IH]; cbn [re_match_word].
  - split; [by left | done].
  - destruct (word_char a) eqn:Ha.
    + rewrite IH. cbn. rewrite Ha. cbn. split.
      * intros [H|(w' & -> & H)]; [by left|]. right.
        exists (String a w'). cbn. by rewrite Ha.
      * intros [H|(w' & Heq & H)]; [by left|]. right.
        destruct w' as [|b w']; cbn in Heq.
        -- injection Heq as -> _. discriminate.
        -- injection Heq as -> ->. cbn in H. rewrite Ha in H. eauto.
    + cbn. rewrite Ha. cbn. split.
      * intros H. apply andb_true_iff in H as [Hnl Hrest].
        apply Ascii.eqb_eq in Hnl as ->. apply String.eqb_eq in Hrest as ->.
        right. by exists "".
      * intros [H|(w' & Heq & H)]; [done|].
        destruct w' as [|b w']; cbn in Heq.
        -- injection Heq as -> ->. reflexivity.
        -- injection Heq as -> ->. cbn in H. by rewrite Ha in H.
Qed.

Lemma name_checks_pass s :
  first_isalpha s = Ok true /\ re_match_word s = true <-> identifier_text s.
Proof.
  split.
  - intros [Hfirst Hword]. destruct s as [|c w]; [discriminate|].
    rewrite (first_isalpha_get _ c) in Hfirst by done.
    injection Hfirst as Halpha. cbn in Hword.
    destruct (word_char c) eqn:Hc.
    + assert (Hletter : ascii_letter c = true)
        by (by rewrite <- alpha_word_letter, Halpha, Hc).
      apply re_match_word_spec in Hword as [H|(w' & -> & H)].
      * exists c, w. eauto.
      * exists c, w'. eauto.
    + apply andb_true_iff in Hword as [Hnl _].
      apply Ascii.eqb_eq in Hnl as ->. discriminate.
  - intros (c & w & Hs & Hletter & Hw).
    rewrite <- alpha_word_letter in Hletter.
    apply andb_true_iff in Hletter as [Halpha Hc].
    assert (Hword : re_match_word w = true /\
                    re_match_word (w ++ String newline "")%string = true).
    { split; apply re_match_word_spec; [by left | right; eauto]. }
    destruct Hs as [-> | ->];
      (split; [by rewrite (first_isalpha_get _ c), Halpha
              | cbn; rewrite Hc; apply Hword]).
Qed.

Lemma accepted_names s existing :
  (table_name_check (PStr s) existing = Ok PNone <->
   first_isalpha s = Ok true /\ re_match_word s = true /\
   duplicated s existing = false) /\
  (column_name_check (PStr s) existing = Ok PNone <->
   first_isalpha s = Ok true /\ re_match_word s = true /\
   duplicated s existing = false).
Proof.
  unfold table_name_check, column_name_check.
  destruct (first_isalpha s) as [[]|]; cbn;
    try (split; (split; [discriminate | by intros [[=] _]])).
  destruct (re_match_word s); cbn;
    [|split; (split; [discriminate | by intros (_ & [=] & _)])].
  destruct (duplicated s existing);
    [split; (split; [discriminate | by intros (_ & _ & [=])])|].
  by repeat split.
Qed.

Lemma not_duplicated s existing :
  duplicated s existing = false <-> PStr s ∉ existing.
Proof.
  rewrite <- duplicated_elem_of. by destruct (duplicated s existing).
Qed.

Lemma accepted_table_name s existing :
  table_name_check (PStr s) existing = Ok PNone ->
  identifier_text s /\ PStr s ∉ existing.
Proof.
  intros H. apply accepted_names in H as (Hfirst & Hword & Hdup).
  split; [by apply name_checks_pass | by apply not_duplicated].
Qed.

(** X1.  A table name is accepted exactly when its text is an ASCII letter
    followed by letters, digits and underscores, possibly with one newline
    after them, and it is not yet among the existing names. *)
Theorem table_name_accepted_iff s existing :
  table_name_check (PStr s) existing = Ok PNone <->
  identifier_text s /\ PStr s ∉ existing.
Proof.
  split; [apply accepted_table_name|].
  intros [Hid Hnew]. apply name_checks_pass in Hid as [Hfirst Hword].
  apply accepted_names. by rewrite not_duplicated.
Qed.

(** X2.  The two name checks agree on every candidate and every list of
    existing names: one accepts when the other does, and they fail with the
    same kind. *)
Theorem name_checks_agree (candidate : pyval) existing :
  (table_name_check candidate existing = Ok PNone <->
   column_name_check candidate existing = Ok PNone) /\
  (forall k, fails_with (table_name_check candidate existing) k <->
             fails_with (column_name_check candidate existing) k) /\
  (forall e, table_name_check candidate existing = Raise e ->
             kind_of e = None ->
             column_name_check candidate existing = Raise e).
Proof.
  assert (Hfinish : forall (a b : result pyval),
            (forall k, fails_with a k <-> fails_with b k) ->
            (a = Ok PNone <-> b = Ok PNone) ->
            (forall e, a = Raise e -> kind_of e = None -> b = Raise e) ->
            (a = Ok PNone <-> b = Ok PNone) /\
            (forall k, fails_with a k <-> fails_with b k) /\
            (forall e, a = Raise e -> kind_of e = None -> b = Raise e))
    by (by intros).
  unfold table_name_check, column_name_check, first_isalpha, getitem.
  destruct candidate as [| | |s| | |];
    try (apply Hfinish; [done | done | by intros e [= <-]]).
  destruct (String.get 0 s) as [c|]; cbn;
    [|apply Hfinish; done].
  destruct (char_isalpha c); cbn;
    [|apply Hfinish; [done | done | by intros e [= <-]]].
  destruct (re_match_word s); cbn;
    [|apply Hfinish; [done | done | by intros e [= <-]]].
  destruct (duplicated s existing); cbn;
    apply Hfinish; try done; by intros e [= <-].
Qed.

Lemma column_name_accepted_iff s existing :
  column_name_check (PStr s) existing = Ok PNone <->
  identifier_text s /\ PStr s ∉ existing.
Proof.
  rewrite <- name_checks_pass, <- not_duplicated.
  rewrite (proj2 (accepted_names s existing)). tauto.
Qed.

End Accepted.

Section Types.

Implicit Types (t : string) (ty owner : pyval) (names : list pyval).

Lemma str_eq_true t v : str_eq t v = true <-> PStr t = v.
Proof.
  destruct v; cbn; try (split; [discriminate | intros [=]]).
  rewrite String.eqb_eq. split; [by intros -> | by intros [= ->]].
Qed.

Lemma accepted_foreign_key t (table_index : nat) names :
  column_type_check (PStr t) table_index names = Ok PNone <->
  exists owner,
    names !! table_index = Some owner /\ PStr t <> owner /\ PStr t ∈ names.
Proof.
  unfold column_type_check, row_at.
  destruct (names !! table_index) as [owner|];
    [|split; [discriminate | by intros (? & [=] & _)]].
  change (existsb (str_eq t) names) with (duplicated t names).
  destruct (str_eq t owner) eqn:Hown.
  - apply str_eq_true in Hown. split; [discriminate|].
    by intros (owner' & [= <-] & Hne & _).
  - assert (Hne : PStr t <> owner)
      by (intros H; apply str_eq_true in H; congruence).
    destruct (duplicated t names) eqn:Hdup; cbn.
    + apply duplicated_elem_of in Hdup. split; [|done].
      intros _. by exists owner.
    + split; [discriminate|]. intros (owner' & _ & _ & Hin).
      apply duplicated_elem_of in Hin. congruence.
Qed.

Lemma accepted_column_type ty (table_index : nat) names :
  column_type_check ty table_index names = Ok PNone ->
  is_type_marker ty = true \/
  exists t owner,
    ty = PStr t /\ names !! table_index = Some owner /\
    PStr t <> owner /\ PStr t ∈ names.
Proof.
  destruct ty as [| | |t|k| |]; try discriminate.
  - intros H. apply accepted_foreign_key in H as (owner & H).
    right. by exists t, owner.
  - destruct k; try discriminate; by left.
Qed.

(** X3.  A column type is accepted exactly when it is one of the classes
    [str], [int], [float], or a string that is among the given table names
    and differs from the name at the given index; a string is never accepted
    when the index is out of range. *)
Theorem column_type_accepted_iff ty (table_index : nat) names :
  column_type_check ty table_index names = Ok PNone <->
  is_type_marker ty = true \/
  exists t owner,
    ty = PStr t /\ names !! table_index = Some owner /\
    PStr t <> owner /\ PStr t ∈ names.
Proof.
  split; [apply accepted_column_type|].
  intros [Hm|(t & owner & -> & H)].
  - destruct ty as [| | | |k| |]; try discriminate. by destruct k.
  - apply accepted_foreign_key. by exists owner.
Qed.

(** X4.  When construction reaches a column whose declared type is neither
    a string nor one of the classes [str], [int], [float], it fails with
    kind UnsupportedColumnType, whatever follows in the input, and the
    table count is not incremented for that table. *)
Theorem unsupported_type_rejected pre name cpre cname ty cpost post printed d :
  __init__ (PList (pre ++ [PTuple [PStr name;
              PList (cpre ++ [PTuple [cname; PClass class_int]])]])) =
    (printed, (Ok tt, d)) ->
  (forall t, ty <> PStr t) -> is_type_marker ty = false ->
  let run :=
    __init__ (PList (pre ++ PTuple [PStr name;
                PList (cpre ++ PTuple [cname; ty] :: cpost)] :: post)) in
  fails_with (outcome run) UnsupportedColumnType /\
  table_count (fields run) = length pre.
Proof.
  intros Hinit Hstr Hmarker run.
  destruct (type_check_reached pre name cpre cname ty cpost post printed d
              (ValueError "column type is not one of strng, float or integer")
              Hinit)
    as (d' & Hrun & Hcount & _).
  - unfold column_type_check. rewrite Hmarker. cbn.
    destruct ty; try reflexivity. by destruct (Hstr s).
  - subst run. rewrite Hrun. by split.
Qed.

Lemma unsupported_type_rejected_witness :
  __init__ (PList [PTuple [PStr "t"; PList [PTuple [PStr "c"; PClass class_int]]]]) =
    ([], (Ok tt,
          mkDatabase
            (PList [PTuple [PStr "t"; PList [PTuple [PStr "c"; PClass class_int]]]])
            [PStr "t"] 1 [1] [[PList []; PStr "c"]] [[PClass class_int]] 1 0)) /\
  is_type_marker (PClass class_bool) = false /\
  fails_with
    (outcome
       (__init__ (PList [PTuple [PStr "t";
                           PList [PTuple [PStr "c"; PClass class_bool]]]])))
    UnsupportedColumnType.
Proof.
  split; [vm_compute; reflexivity|]. split; [reflexivity|].
  refine (proj1 (unsupported_type_rejected [] "t" [] (PStr "c")
                   (PClass class_bool) [] [] _ _ eq_refl _ eq_refl)).
  intros t. discriminate.
Defined.

End Types.

(** * Further properties of the constructor *)

Section Built.

Implicit Types (d : Database) (names tys row crow : list pyval).

(** A loop that raises nothing carries an invariant indexed by the number of
    items visited. *)
Lemma for_each_invariant {A} (body : A -> M unit) (items : list A) :
  forall (I : nat -> Database -> Prop),
    (forall j x d d',
       items !! j = Some x -> I j d -> body x d = (Ok tt, d') -> I (S j) d') ->
    forall d d',
      I 0 d -> for_each body items d = (Ok tt, d') -> I (length items) d'.
Proof.
  induction items as [|a items IH]; intros I Hstep d d' H0 Hrun.
  - by injection Hrun as <-.
  - cbn [for_each] in Hrun. apply bind_Ok in Hrun as ([] & d1 & Hbody & Hrest).
    apply (IH (fun j => I (S j))) with (d := d1); [|by eapply (Hstep 0)|done].
    intros j x e e' Hj. by apply (Hstep (S j)).
Qed.

Lemma name_check_str (v : pyval) existing :
  column_name_check v existing = Ok PNone -> exists s, v = PStr s.
Proof. destruct v; try discriminate. eauto. Qed.

Lemma accepted_column_name (v : pyval) crow :
  column_name_check v (crow ++ [PList []]) = Ok PNone ->
  identifier v /\ v ∉ crow.
Proof.
  intros H. destruct (name_check_str _ _ H) as [s ->].
  apply column_name_accepted_iff in H as [Hid Hnot].
  split; [by exists s|]. intros Hin. apply Hnot, elem_of_app. by left.
Qed.

Lemma column_body_checked columns d d' :
  column_body columns d = (Ok tt, d') ->
  exists name ty crow,
    getitem columns 0 = Ok name /\ getitem columns 1 = Ok ty /\
    column d !! table_count d = Some crow /\
    column_name_check name (crow ++ [PList []]) = Ok PNone /\
    column_type_check ty (table_count d) (table_names d) = Ok PNone.
Proof.
  intros H.
  destruct (column d !! table_count d) as [crow|] eqn:Hc.
  - rewrite (column_body_run _ _ _ Hc) in H. cbv zeta in H.
    destruct (getitem columns 0) as [name|]; [|discriminate].
    destruct (column_name_check name (crow ++ [PList []])) as [x|] eqn:Hn;
      [|discriminate].
    pose proof (column_name_check_None _ _ _ Hn) as ->.
    destruct (table_col_count d !! table_count d); [|discriminate].
    destruct (getitem columns 1) as [ty|]; [|discriminate].
    destruct (column_type_check ty (table_count d) (table_names d)) as [y|] eqn:Ht;
      [|discriminate].
    pose proof (column_type_check_None _ _ _ _ Ht) as ->.
    by exists name, ty, crow.
  - unfold column_body in H.
    by rewrite (bind_raise _ _ _ _ _ (column_append_out _ _ Hc)) in H.
Qed.

(** The names the inner loop accepts are identifiers, distinct from each
    other and from what the row already holds; the types it accepts pass
    the resolver against the table names of the moment. *)
Lemma column_loop_checked items : forall d d' crow trow n names tys,
  for_each column_body items d = (Ok tt, d') ->
  column d !! table_count d = Some crow ->
  col_type d !! table_count d = Some trow ->
  table_col_count d !! table_count d = Some n ->
  column_names items = Ok names -> column_types items = Ok tys ->
  Forall identifier names /\ NoDup names /\
  (forall x, x ∈ names -> x ∉ crow) /\
  Forall (fun ty => column_type_check ty (table_count d) (table_names d) = Ok PNone)
    tys.
Proof.
  induction items as [|c items IH];
    intros d d' crow trow n names tys Hrun Hc Ht Hn Hnames Htys.
  - injection Hnames as <-. injection Htys as <-.
    repeat split; try constructor. intros x Hx. by apply elem_of_nil in Hx.
  - cbn [for_each] in Hrun. apply bind_Ok in Hrun as ([] & d1 & Hbody & Hrest).
    destruct (column_body_checked _ _ _ Hbody)
      as (name & ty & crow' & H0 & H1 & Hc' & Hname & Hty).
    apply column_body_Ok in Hbody
      as (name' & ty' & crow'' & trow' & n' & H0' & H1' & Hc'' & Ht' & Hn' & ->).
    rewrite Hc in Hc', Hc''. rewrite Ht in Ht'. rewrite Hn in Hn'.
    rewrite H0 in H0'. rewrite H1 in H1'.
    injection Hc' as <-. injection Hc'' as <-. injection Ht' as <-.
    injection Hn' as <-. injection H0' as <-. injection H1' as <-.
    unfold column_names, column_types in Hnames, Htys. cbn in Hnames, Htys.
    rewrite H0 in Hnames. rewrite H1 in Htys. cbn in Hnames, Htys.
    destruct (collect (fun c => getitem c 0) items) as [names'|] eqn:Hn';
      [|discriminate].
    destruct (collect (fun c => getitem c 1) items) as [tys'|] eqn:Ht';
      [|discriminate].
    injection Hnames as <-. injection Htys as <-.
    assert (Hlc := lookup_lt_Some _ _ _ Hc).
    assert (Hlt := lookup_lt_Some _ _ _ Ht).
    assert (Hln := lookup_lt_Some _ _ _ Hn).
    eapply (IH _ _ (crow ++ [PList []; name]) (trow ++ [ty]) (n + 1) names' tys')
      in Hrest as (Hids & Hnodup & Hfresh & Htypes);
      [| by apply list_lookup_insert_eq .. | done | done].
    apply accepted_column_name in Hname as [Hid Hnew].
    repeat split.
    + by constructor.
    + constructor; [|done]. intros Hin. apply (Hfresh _ Hin).
      apply elem_of_app. right. apply list_elem_of_further, list_elem_of_here.
    + intros x Hx Hin. apply elem_of_cons in Hx as [->|Hx]; [done|].
      apply (Hfresh _ Hx). apply elem_of_app. by left.
    + by constructor.
Qed.

Lemma table_body_valid tables table d d' k :
  table_body tables table d = (Ok tt, d') ->
  table_count d = k ->
  length (table_col_count d) = k -> length (column d) = k ->
  length (col_type d) = k ->
  exists name cols names tys,
    getitem table 0 = Ok name /\
    table_name_check name (table_names d) = Ok PNone /\
    declared_columns tables k = Ok cols /\
    column_names cols = Ok names /\ column_types cols = Ok tys /\
    d' = table_added name names tys (length cols) d /\
    Forall identifier names /\ NoDup names /\
    Forall (fun ty => column_type_check ty k (table_names d ++ [name]) = Ok PNone)
      tys.
Proof.
  intros Hrun Hk Hn Hc Ht.
  destruct (table_body_Ok _ _ _ _ _ Hrun Hk Hn Hc Ht)
    as (name & cols & names & tys & Hname & Hcheck & Hcols & Hnames & Htys & ->).
  exists name, cols, names, tys. do 6 (split; [done|]).
  rewrite table_body_run, Hname, Hcheck, Hk, Hcols in Hrun.
  destruct (for_each column_body cols (registered name d))
    as [[[]|] d2] eqn:Hloop; [|discriminate].
  eapply (column_loop_checked _ _ _ [] [] 0 names tys) in Hloop
    as (Hids & Hnodup & _ & Htypes); try done.
  - cbn in Htypes. by rewrite Hk in Htypes.
  - cbn. rewrite Hk, <- Hc. by apply list_lookup_middle.
  - cbn. rewrite Hk, <- Ht. by apply list_lookup_middle.
  - cbn. rewrite Hk, <- Hn. by apply list_lookup_middle.
Qed.

Lemma well_formed_fresh v : well_formed (set_schema v fresh).
Proof.
  unfold well_formed. cbn. repeat split.
  - constructor.
  - constructor.
  - intros i row Hi. by rewrite lookup_nil in Hi.
  - intros i tys ty Hi. by rewrite lookup_nil in Hi.
Qed.

Lemma well_formed_table_added name names tys n d :
  level d (table_count d) ->
  well_formed d ->
  table_name_check name (table_names d) = Ok PNone ->
  Forall identifier names -> NoDup names ->
  Forall (fun ty => column_type_check ty (table_count d) (table_names d ++ [name])
                    = Ok PNone) tys ->
  well_formed (table_added name names tys n d).
Proof.
  intros (Hln & _ & Hlc & Hlt) (Hnodup & Hids & Hrows & Htypes)
    Hname Hcolids Hcolnodup Hcoltypes.
  assert (Hstr : exists s, name = PStr s) by (destruct name; try discriminate; eauto).
  destruct Hstr as [s ->].
  apply accepted_table_name in Hname as [Hid Hnew].
  unfold well_formed, table_added. cbn. repeat split.
  - apply NoDup_app. repeat split; [done | | apply NoDup_singleton].
    intros x Hx Hin. apply list_elem_of_singleton in Hin as ->. done.
  - apply Forall_app. split; [done|]. constructor; [by exists s | constructor].
  - intros i row Hi. apply lookup_app_Some in Hi as [Hi|[_ Hi]]; [by eapply Hrows|].
    apply list_lookup_singleton_Some in Hi as [_ <-]. by exists names.
  - intros i row ty Hi Hty.
    apply lookup_app_Some in Hi as [Hi|[Hge Hi]].
    + destruct (Htypes i row ty Hi Hty) as [Hm|(t & j & -> & Hj & Hlook)];
        [by left|].
      right. exists t, j. repeat split; try done. by apply lookup_app_l_Some.
    + apply list_lookup_singleton_Some in Hi as [Hi <-].
      assert (i = table_count d) as -> by lia.
      rewrite Forall_forall in Hcoltypes. specialize (Hcoltypes ty Hty).
      apply accepted_column_type in Hcoltypes
        as [Hm|(t & owner & -> & Hown & Hne & Hin)]; [by left|].
      rewrite <- Hln in Hown at 1. rewrite list_lookup_middle in Hown by done.
      injection Hown as <-.
      apply elem_of_app in Hin as [Hin|Hin];
        [|apply list_elem_of_singleton in Hin; done].
      apply list_elem_of_lookup in Hin as [j Hj].
      right. exists t, j. repeat split; try done.
      * rewrite <- Hln. by eapply lookup_lt_Some.
      * by apply lookup_app_l_Some.
Qed.

(** A constructor that raised nothing leaves a legal schema. *)
Lemma table_loop_well_formed tables items d :
  py_iter tables = Ok items ->
  for_each (table_body tables) items (set_schema tables fresh) = (Ok tt, d) ->
  built_upto tables d (length items) /\ well_formed d.
Proof.
  intros Hiter Hrun.
  apply (for_each_invariant (table_body tables) items
           (fun j e => built_upto tables e j /\ well_formed e))
    with (d := set_schema tables fresh); [| |done].
  - clear d Hrun. intros j x d d' Hj [Hinv Hwf] Hbody.
    pose proof Hinv as (Hk & Hln & Hlc & Hlr & Hlt & _).
    destruct (table_body_valid _ _ _ _ _ Hbody Hk Hlc Hlr Hlt)
      as (name & cols & names & tys & Hname & Hcheck & Hcols & Hnames & Htys
          & -> & Hids & Hnodup & Htypes).
    split.
    + replace (S j) with (j + 1) by lia.
      eapply built_upto_table_added; try done. by eapply iter_getitem.
    + apply well_formed_table_added; try done; by rewrite Hk.
  - split; [apply built_upto_fresh | apply well_formed_fresh].
Qed.

Lemma init_well_formed tables printed d :
  __init__ tables = (printed, (Ok tt, d)) -> well_formed d.
Proof.
  unfold __init__. destruct (iterable_check tables) as [out iterable] eqn:Hit.
  intros [= <- Hrun]. unfold iterable_check in Hit.
  destruct (py_iter tables) as [items|e] eqn:Hiter.
  - injection Hit as <- <-. cbn [ne_False] in Hrun.
    unfold bind, modify, lift in Hrun.
    by eapply table_loop_well_formed.
  - destruct e; injection Hit as <- <-; cbn [ne_False] in Hrun;
      try discriminate.
    injection Hrun as <-. apply (well_formed_fresh (PTuple [])).
Qed.

End Built.

Lemma blind_keeps_schema {A} (m : M A) d r d' :
  schema_blind m -> m d = (r, d') -> schema d' = schema d.
Proof.
  intros Hblind Hrun. specialize (Hblind (schema d) d).
  replace (set_schema (schema d) d) with d in Hblind by (by destruct d).
  rewrite Hrun in Hblind. injection Hblind as Hd. by rewrite Hd.
Qed.

(** X5.  After a construction that raised nothing, the table names are
    pairwise distinct and each is an identifier. *)
Theorem table_names_distinct tables printed d :
  __init__ tables = (printed, (Ok tt, d)) ->
  NoDup (table_names d) /\ Forall identifier (table_names d).
Proof.
  intros Hinit. apply init_well_formed in Hinit as (? & ? & _). by split.
Qed.

Lemma table_names_distinct_witness :
  __init__ users_posts =
    ([], (Ok tt,
          mkDatabase users_posts [PStr "users"; PStr "posts"] 2 [2; 1]
            [[PList []; PStr "name"; PList []; PStr "age"];
             [PList []; PStr "author"]]
            [[PClass class_str; PClass class_int]; [PStr "users"]] 1 0)) /\
  NoDup [PStr "users"; PStr "posts"].
Proof.
  split; [vm_compute; reflexivity|].
  exact (proj1 (table_names_distinct users_posts [] _ users_posts_run)).
Defined.

(** X6.  After a construction that raised nothing, every row of [column]
    is a sequence of names, each preceded by an empty list, and those names
    are pairwise distinct identifiers. *)
Theorem column_names_distinct tables printed d i row :
  __init__ tables = (printed, (Ok tt, d)) ->
  column d !! i = Some row ->
  exists names,
    row = with_placeholders names /\ NoDup names /\ Forall identifier names.
Proof.
  intros Hinit Hrow. apply init_well_formed in Hinit as (_ & _ & Hrows & _).
  by eapply Hrows.
Qed.

Lemma column_names_distinct_witness :
  __init__ users_posts =
    ([], (Ok tt,
          mkDatabase users_posts [PStr "users"; PStr "posts"] 2 [2; 1]
            [[PList []; PStr "name"; PList []; PStr "age"];
             [PList []; PStr "author"]]
            [[PClass class_str; PClass class_int]; [PStr "users"]] 1 0)) /\
  exists names,
    [PList []; PStr "name"; PList []; PStr "age"] = with_placeholders names /\
    NoDup names.
Proof.
  split; [vm_compute; reflexivity|].
  destruct (column_names_distinct users_posts [] _ 0 _ users_posts_run eq_refl)
    as (names & Hrow & Hnodup & _).
  by exists names.
Defined.

(** X7.  After a construction that raised nothing, every stored column type
    is one of the classes [str], [int], [float] or the name of a table
    registered at a strictly smaller index than the table that holds it: a
    foreign key only points backwards, so the references between tables form
    no cycle. *)
Theorem foreign_keys_point_back tables printed d i tys ty :
  __init__ tables = (printed, (Ok tt, d)) ->
  col_type d !! i = Some tys -> ty ∈ tys ->
  is_type_marker ty = true \/
  exists t j, ty = PStr t /\ j < i /\ table_names d !! j = Some (PStr t).
Proof.
  intros Hinit Htys Hty. apply init_well_formed in Hinit as (_ & _ & _ & Htypes).
  by apply (Htypes i tys ty).
Qed.

Lemma foreign_keys_point_back_witness :
  __init__ users_posts =
    ([], (Ok tt,
          mkDatabase users_posts [PStr "users"; PStr "posts"] 2 [2; 1]
            [[PList []; PStr "name"; PList []; PStr "age"];
             [PList []; PStr "author"]]
            [[PClass class_str; PClass class_int]; [PStr "users"]] 1 0)) /\
  PStr "users" ∈ [PStr "users"] /\
  exists t j,
    PStr "users" = PStr t /\ j < 1 /\
    [PStr "users"; PStr "posts"] !! j = Some (PStr t).
Proof.
  split; [vm_compute; reflexivity|].
  split; [apply list_elem_of_here|].
  destruct (foreign_keys_point_back users_posts [] _ 1 _ (PStr "users")
              users_posts_run eq_refl (list_elem_of_here _ _))
    as [Hmarker|H]; [discriminate | exact H].
Defined.

(** X8.  A construction over a traversable input that raised nothing
    printed nothing, kept the input as [schema], counted one table per item
    visited, recorded the first component of each item, in order, as the
    table names, and left the row counter at 1 and the version at 0. *)
Theorem init_result tables items printed d :
  py_iter tables = Ok items ->
  __init__ tables = (printed, (Ok tt, d)) ->
  printed = [] /\ schema d = tables /\ table_count d = length items /\
  (forall i t, items !! i = Some t ->
     exists name, getitem t 0 = Ok name /\ table_names d !! i = Some name) /\
  pk d = 1%Z /\ version d = 0%Z.
Proof.
  intros Hiter Hinit.
  pose proof (init_built _ _ _ Hinit) as (_ & Hpk & Hv).
  unfold __init__, iterable_check in Hinit. rewrite Hiter in Hinit.
  cbn [ne_False] in Hinit. injection Hinit as <- Hrun.
  unfold bind, modify, lift in Hrun.
  pose proof (blind_keeps_schema _ _ _ _
                (blind_for_each _ items (blind_table_body tables)) Hrun) as Hs.
  apply table_loop_well_formed in Hrun as [(Hk & _ & _ & _ & _ & Hall) _]; [|done].
  repeat split; try done.
  intros i t Hi.
  destruct (Hall i) as (t' & name & _ & _ & _ & Ht & Hname & _ & _ & _ & Hlook & _);
    [by eapply lookup_lt_Some|].
  rewrite (iter_getitem _ _ _ _ Hiter Hi) in Ht. injection Ht as <-.
  by exists name.
Qed.

Lemma init_result_witness :
  py_iter users_posts =
    Ok [PTuple [PStr "users";
                PList [PTuple [PStr "name"; PClass class_str];
                       PTuple [PStr "age"; PClass class_int]]];
        PTuple [PStr "posts"; PList [PTuple [PStr "author"; PStr "users"]]]] /\
  schema (fields (__init__ users_posts)) = users_posts /\
  table_count (fields (__init__ users_posts)) = 2.
Proof.
  split; [reflexivity|].
  destruct (init_result users_posts _ [] _ eq_refl users_posts_run)
    as (_ & Hs & Hk & _).
  split; [exact Hs | exact Hk].
Defined.

(** * The fields after an exception *)

Section Partial.

Implicit Types (d : Database).

Lemma same_but_current_refl d : same_but_current d d.
Proof. by repeat split. Qed.

Lemma same_but_current_trans d1 d2 d3 :
  same_but_current d1 d2 -> same_but_current d2 d3 -> same_but_current d1 d3.
Proof.
  intros (Hs & Hn & Hk & Hp & Hv & Hl1 & Hl2 & Hl3 & Hi)
         (Hs' & Hn' & Hk' & Hp' & Hv' & Hl1' & Hl2' & Hl3' & Hi').
  repeat split; try congruence.
  - destruct (Hi i) as (<- & _); [done|]. apply Hi'. congruence.
  - destruct (Hi i) as (_ & <- & _); [done|]. apply Hi'. congruence.
  - destruct (Hi i) as (_ & _ & <-); [done|]. apply Hi'. congruence.
Qed.

Lemma same_but_current_update d counts rows types :
  (counts = table_col_count d \/ exists n, counts = <[table_count d := n]> (table_col_count d)) ->
  (rows = column d \/ exists r, rows = <[table_count d := r]> (column d)) ->
  (types = col_type d \/ exists r, types = <[table_count d := r]> (col_type d)) ->
  same_but_current d
    (mkDatabase (schema d) (table_names d) (table_count d) counts rows types
       (pk d) (version d)).
Proof.
  intros [->|[n ->]] [->|[r ->]] [->|[r' ->]];
    repeat split; cbn; rewrite ?length_insert; try done;
    by rewrite list_lookup_insert_ne.
Qed.

(** One pass of the inner loop, whatever its outcome, only touches the
    entries of the current table. *)
Lemma column_body_frame columns d r d' :
  column_body columns d = (r, d') -> same_but_current d d'.
Proof.
  intros H.
  destruct (column d !! table_count d) as [crow|] eqn:Hc.
  - rewrite (column_body_run _ _ _ Hc) in H. cbv zeta in H.
    repeat (case_match; try discriminate); injection H as <- <-;
      unfold column_added, set_table_col_count, set_column; cbn;
      apply same_but_current_update; eauto.
  - unfold column_body in H.
    rewrite (bind_raise _ _ _ _ _ (column_append_out _ _ Hc)) in H.
    injection H as <- <-. apply same_but_current_refl.
Qed.

Lemma column_loop_frame items : forall d r d',
  for_each column_body items d = (r, d') -> same_but_current d d'.
Proof.
  induction items as [|c items IH]; intros d r d' H.
  - injection H as <- <-. apply same_but_current_refl.
  - cbn [for_each] in H. unfold bind in H.
    destruct (column_body c d) as [[[]|e] d1] eqn:Hbody.
    + eapply same_but_current_trans; [by eapply column_body_frame | by eapply IH].
    + injection H as <- <-. by eapply column_body_frame.
Qed.

(** One pass of the outer loop, whatever its outcome: the entries below the
    table count stay; either the pass returns, with one more table counted
    and one more entry in each list, or it raises, the table count stays, and
    the lists have all grown by one entry or none of them has. *)
Lemma table_body_outcome tables table d r d' k :
  table_body tables table d = (r, d') ->
  table_count d = k -> level d k ->
  pk d' = pk d /\ version d' = version d /\
  (forall i, i < k ->
     table_names d' !! i = table_names d !! i /\
     table_col_count d' !! i = table_col_count d !! i /\
     column d' !! i = column d !! i /\
     col_type d' !! i = col_type d !! i) /\
  ((r = Ok tt /\ table_count d' = k + 1 /\ level d' (k + 1)) \/
   (exists e, r = Raise e /\ table_count d' = k /\
              (level d' k \/ level d' (k + 1)))).
Proof.
  rewrite table_body_run. intros Hrun Hk (Hln & Hlc & Hlr & Hlt).
  assert (Hstay : forall e, (r, d') = (Raise e, d) ->
            pk d' = pk d /\ version d' = version d /\
            (forall i, i < k ->
               table_names d' !! i = table_names d !! i /\
               table_col_count d' !! i = table_col_count d !! i /\
               column d' !! i = column d !! i /\
               col_type d' !! i = col_type d !! i) /\
            ((r = Ok tt /\ table_count d' = k + 1 /\ level d' (k + 1)) \/
             (exists e, r = Raise e /\ table_count d' = k /\
                        (level d' k \/ level d' (k + 1))))).
  { intros e [= -> ->]. split; [done|]. split; [done|]. split; [done|].
    right. exists e. split; [done|]. split; [done|]. left. by repeat split. }
  destruct (getitem table 0) as [name|e]; [|by apply (Hstay e)].
  destruct (table_name_check name (table_names d)) as [?|e];
    [|by apply (Hstay e)].
  clear Hstay.
  assert (Hreg : forall d2, same_but_current (registered name d) d2 ->
            pk d2 = pk d /\ version d2 = version d /\
            table_count d2 = k /\ level d2 (k + 1) /\
            (forall i, i < k ->
               table_names d2 !! i = table_names d !! i /\
               table_col_count d2 !! i = table_col_count d !! i /\
               column d2 !! i = column d !! i /\
               col_type d2 !! i = col_type d !! i)).
  { intros d2 (_ & Hn & Hc & Hp & Hv & Hl1 & Hl2 & Hl3 & Hi). cbn in *.
    rewrite !length_app in *. cbn in *.
    assert (Hlen : length (table_names d2) = k + 1)
      by (rewrite Hn, length_app; cbn; lia).
    split; [congruence|]. split; [congruence|]. split; [congruence|].
    split; [repeat split; lia|].
    intros i Hlt'. destruct (Hi i) as (H1 & H2 & H3); [lia|].
    rewrite Hn, H1, H2, H3. by rewrite !lookup_app_l by lia. }
  destruct (declared_columns tables (table_count d)) as [cols|e].
  - destruct (for_each column_body cols (registered name d))
      as [[[]|e] d2] eqn:Hloop; injection Hrun as <- <-;
      apply column_loop_frame, Hreg in Hloop
        as (Hp & Hv & Hc & (Hl0 & Hl1 & Hl2 & Hl3) & Hi).
    + split; [exact Hp|]. split; [exact Hv|]. split; [exact Hi|].
      left. split; [done|]. split; [cbn; lia|]. by repeat split.
    + split; [exact Hp|]. split; [exact Hv|]. split; [exact Hi|].
      right. exists e. split; [done|]. split; [done|]. right. by repeat split.
  - injection Hrun as <- <-.
    destruct (Hreg _ (same_but_current_refl _))
      as (Hp & Hv & Hc & Hl & Hi).
    split; [exact Hp|]. split; [exact Hv|]. split; [exact Hi|].
    right. exists e. split; [done|]. split; [done|]. by right.
Qed.

Lemma table_built_kept tables d d' i :
  table_built tables d i ->
  table_names d' !! i = table_names d !! i /\
  table_col_count d' !! i = table_col_count d !! i /\
  column d' !! i = column d !! i /\
  col_type d' !! i = col_type d !! i ->
  table_built tables d' i.
Proof.
  intros (t & name & cols & names & tys & H) (H1 & H2 & H3 & H4).
  exists t, name, cols, names, tys. by rewrite H1, H2, H3, H4.
Qed.

(** The outer loop, whatever its outcome, leaves the tables it counted
    recorded, and the row counter and the version alone. *)
Lemma table_loop_outcome tables items : forall d r d' k,
  for_each (table_body tables) items d = (r, d') ->
  built_upto tables d k ->
  (forall j x, items !! j = Some x -> getitem tables (k + j) = Ok x) ->
  pk d' = pk d /\ version d' = version d /\
  (forall i, i < table_count d' -> table_built tables d' i) /\
  ((r = Ok tt /\ level d' (table_count d')) \/
   (exists e, r = Raise e /\
      (level d' (table_count d') \/ level d' (table_count d' + 1)))).
Proof.
  induction items as [|table items IH]; intros d r d' k Hrun Hinv Hitems.
  - injection Hrun as <- <-.
    destruct Hinv as (Hk & Hln & Hlc & Hlr & Hlt & Hall).
    split; [done|]. split; [done|]. split; [by rewrite Hk|].
    left. split; [done|]. rewrite Hk. by repeat split.
  - cbn [for_each] in Hrun. unfold bind in Hrun.
    destruct (table_body tables table d) as [[[]|e] d1] eqn:Hbody.
    + pose proof Hinv as (Hk & _ & Hlc & Hlr & Hlt & _).
      destruct (table_body_Ok _ _ _ _ _ Hbody Hk Hlc Hlr Hlt)
        as (name & cols & names & tys & Hname & _ & Hcols & Hnames & Htys & ->).
      eapply (IH _ _ _ (k + 1)) in Hrun as (Hp & Hv & Hrest);
        [split; [exact Hp|]; split; [exact Hv|]; exact Hrest | |].
      * eapply built_upto_table_added; try done.
        rewrite <- (Nat.add_0_r k). by apply Hitems.
      * intros j x Hj. replace (k + 1 + j) with (k + S j) by lia.
        by apply Hitems.
    + injection Hrun as <- <-.
      destruct Hinv as (Hk & Hln & Hlc & Hlr & Hlt & Hall).
      destruct (table_body_outcome _ _ _ _ _ k Hbody Hk)
        as (Hp & Hv & Hkept & [(Hok & _)|(e' & _ & Hk' & Hlevel)]);
        [by repeat split | discriminate |].
      split; [done|]. split; [done|]. split.
      * intros i Hi. rewrite Hk' in Hi.
        eapply table_built_kept; [by apply Hall | by apply Hkept].
      * right. exists e. split; [done|]. by rewrite Hk'.
Qed.

Lemma init_outcome tables printed r d :
  __init__ tables = (printed, (r, d)) ->
  pk d = 1%Z /\ version d = 0%Z /\
  (forall i, i < table_count d -> table_built tables d i) /\
  ((r = Ok tt /\ level d (table_count d)) \/
   (exists e, r = Raise e /\
      (level d (table_count d) \/ level d (table_count d + 1)))).
Proof.
  unfold __init__. destruct (iterable_check tables) as [out iterable] eqn:Hit.
  intros [= <- Hrun]. unfold iterable_check in Hit.
  assert (Hfresh : (r, d) = (Ok tt, fresh) ->
            pk d = 1%Z /\ version d = 0%Z /\
            (forall i, i < table_count d -> table_built tables d i) /\
            ((r = Ok tt /\ level d (table_count d)) \/
             (exists e, r = Raise e /\
                (level d (table_count d) \/ level d (table_count d + 1))))).
  { intros [= -> ->]. split; [done|]. split; [done|].
    split; [cbn; lia|]. left. by repeat split. }
  destruct (py_iter tables) as [items|e] eqn:Hiter.
  - injection Hit as <- <-. cbn [ne_False] in Hrun.
    unfold bind, modify, lift in Hrun.
    eapply (table_loop_outcome _ _ _ _ _ 0) in Hrun; [exact Hrun | |].
    + apply built_upto_fresh.
    + intros j x Hj. by eapply iter_getitem.
  - destruct e; injection Hit as <- <-; cbn [ne_False] in Hrun.
    + by apply Hfresh.
    + unfold bind, modify, lift in Hrun. injection Hrun as <- <-.
      split; [done|]. split; [done|]. split; [cbn; lia|].
      right. eexists. split; [done|]. left. by repeat split.
    + unfold bind, modify, lift in Hrun. injection Hrun as <- <-.
      split; [done|]. split; [done|]. split; [cbn; lia|].
      right. eexists. split; [done|]. left. by repeat split.
    + unfold bind, modify, lift in Hrun. injection Hrun as <- <-.
      split; [done|]. split; [done|]. split; [cbn; lia|].
      right. eexists. split; [done|]. left. by repeat split.
Qed.

End Partial.

(** X9.  Whatever the outcome of the constructor, the four lists of the
    schema have one common length, which is the table count or one more;
    it is the table count when nothing was raised, and it can only be one
    more after an exception (raised once the table's name was appended). *)
Theorem lists_stay_level tables printed r d :
  __init__ tables = (printed, (r, d)) ->
  exists n,
    length (table_names d) = n /\ length (table_col_count d) = n /\
    length (column d) = n /\ length (col_type d) = n /\
    (n = table_count d \/ (n = table_count d + 1 /\ exists e, r = Raise e)).
Proof.
  intros Hinit.
  destruct (init_outcome _ _ _ _ Hinit)
    as (_ & _ & _ & [(_ & Hl)|(e & -> & [Hl|Hl])]);
    destruct Hl as (H1 & H2 & H3 & H4).
  - exists (table_count d). repeat split; try done. by left.
  - exists (table_count d). repeat split; try done. by left.
  - exists (table_count d + 1). repeat split; try done. right. eauto.
Qed.

Lemma lists_stay_level_witness :
  __init__ self_ref =
    ([], (Raise (IntegrityError
                   "foreign key causes a cycle: references to current table"),
          mkDatabase self_ref [PStr "a"] 0 [1] [[PList []; PStr "self_ref"]] [[]]
            1 0)) /\
  exists n,
    length (table_names (fields (__init__ self_ref))) = n /\
    length (col_type (fields (__init__ self_ref))) = n /\
    n = table_count (fields (__init__ self_ref)) + 1.
Proof.
  split; [vm_compute; reflexivity|].
  destruct (lists_stay_level self_ref [] _ _ eq_refl)
    as (n & H1 & _ & _ & H4 & [Hn|[Hn _]]).
  - cbn in H1, Hn. exfalso. lia.
  - exists n. by repeat split.
Defined.

(** X10.  The constructor does not roll back: whatever its outcome, every
    table below the table count stays recorded, with its name, its number
    of columns, its row of names and its row of types as the input declares
    them, and the row counter and the version are 1 and 0. *)
Theorem counted_tables_recorded tables printed r d i :
  __init__ tables = (printed, (r, d)) ->
  i < table_count d ->
  pk d = 1%Z /\ version d = 0%Z /\
  exists t name cols names tys,
    getitem tables i = Ok t /\ getitem t 0 = Ok name /\
    declared_columns tables i = Ok cols /\
    column_names cols = Ok names /\ column_types cols = Ok tys /\
    table_names d !! i = Some name /\
    table_col_count d !! i = Some (length cols) /\
    column d !! i = Some (with_placeholders names) /\
    col_type d !! i = Some tys.
Proof.
  intros Hinit Hi.
  destruct (init_outcome _ _ _ _ Hinit) as (Hp & Hv & Hall & _).
  split; [done|]. split; [done|]. by apply Hall.
Qed.

Lemma counted_tables_recorded_witness :
  __init__ two_users =
    ([], (Raise (ValueError "duplicate table names"),
          mkDatabase two_users [PStr "users"] 1 [0] [[]] [[]] 1 0)) /\
  0 < 1 /\
  exists name,
    table_names (fields (__init__ two_users)) !! 0 = Some name /\
    name = PStr "users".
Proof.
  split; [vm_compute; reflexivity|]. split; [lia|].
  destruct (counted_tables_recorded two_users [] _ _ 0 eq_refl)
    as (_ & _ & t & name & cols & names & tys & Ht & Hname & _ & _ & _ & Hlook & _);
    [cbn; lia|].
  exists name. split; [exact Hlook|].
  injection Ht as <-. by injection Hname as <-.
Defined.

(** X11.  Construction is fail-fast and reads its input in order: when a
    definition list raises, every list that extends it raises the same
    exception and leaves the same fields, apart from the retained input; the
    definitions after the failing one are never examined. *)
Theorem failure_ignores_the_rest (l post : list pyval) e d :
  __init__ (PList l) = ([], (Raise e, d)) ->
  __init__ (PList (l ++ post)) =
    ([], (Raise e, set_schema (PList (l ++ post)) d)).
Proof.
  rewrite !init_list. intros [= Hrun]. f_equal.
  rewrite for_each_app. apply bind_raise.
  rewrite (table_loop_local _ (PList l)).
  - pose proof (blind_for_each _ l (blind_table_body (PList l))
                  (PList (l ++ post)) (set_schema (PList l) fresh)) as Hblind.
    by rewrite Hrun in Hblind.
  - intros j Hj. cbn.
    transitivity (declared_columns (PList (l ++ [])) j);
      [by apply declared_columns_prefix | by rewrite app_nil_r].
Qed.

Lemma failure_ignores_the_rest_witness :
  __init__ self_ref =
    ([], (Raise (IntegrityError
                   "foreign key causes a cycle: references to current table"),
          mkDatabase self_ref [PStr "a"] 0 [1] [[PList []; PStr "self_ref"]] [[]]
            1 0)) /\
  outcome
    (__init__
       (PList [PTuple [PStr "a"; PList [PTuple [PStr "self_ref"; PStr "a"]]];
               PTuple [PStr "b"; PList []]])) =
  Raise (IntegrityError "foreign key causes a cycle: references to current table").
Proof.
  split; [vm_compute; reflexivity|].
  pose proof (failure_ignores_the_rest
                [PTuple [PStr "a"; PList [PTuple [PStr "self_ref"; PStr "a"]]]]
                [PTuple [PStr "b"; PList []]] _ _ eq_refl) as H.
  cbn [app] in H. by rewrite H.
Defined.

(** X12.  A string of at least one character given as the definition list
    passes [iterable_check] but never builds: the constructor raises, and
    no table is counted. *)
Theorem text_input_never_builds (c : ascii) (rest : string) :
  exists e d,
    __init__ (PStr (String c rest)) = ([], (Raise e, d)) /\ table_count d = 0.
Proof.
  set (T := PStr (String c rest)).
  assert (Hbody : exists e d,
            table_body T (char_str c) (set_schema T fresh) = (Raise e, d) /\
            table_count d = 0).
  { rewrite table_body_run. cbn [getitem char_str String.get].
    destruct (table_name_check (char_str c) _) as [?|e]; [|by eexists _, _].
    by eexists _, _. }
  destruct Hbody as (e & d & Hbody & Hcount).
  exists e, d. split; [|done].
  unfold __init__, iterable_check. cbn [py_iter T ne_False]. f_equal.
  unfold bind at 1 2, modify, lift. cbn [list_ascii_of_string fmap list_fmap for_each].
  by rewrite (bind_raise _ _ _ _ _ Hbody).
Qed.

(** * The methods over the life of a handle *)

Section Lifetime.

Variable insert_check :
  pyval -> pyval -> list pyval -> list nat -> list (list pyval) -> result pyval.

Implicit Types (d : Database).

Lemma perform_frame (c : call) d r d' :
  perform insert_check c d = (r, d') ->
  d' = d \/
  exists table_name values checked,
    c = Insert table_name values /\
    insert_check table_name values (table_names d) (table_col_count d)
      (col_type d) = Ok checked /\
    ne_False checked = true /\
    d' = set_pk (pk d + 1)%Z d.
Proof.
  destruct c; cbn [perform]; try (intros [= <- <-]; by left).
  rewrite insert_run. intros Hrun.
  destruct (insert_check _ _ _ _ _) as [checked|e] eqn:Hcheck.
  - destruct (ne_False checked) eqn:Hne; injection Hrun as <- <-; [|by left].
    right. by exists table_name, values, checked.
  - injection Hrun as <- <-. by left.
Qed.

(** X13.  A call of any method leaves every field as it was, with one
    exception: an [insert] whose values pass the row check adds one to the
    row counter, and changes nothing else.  The methods other than [insert]
    never raise. *)
Theorem only_insert_changes (c : call) d r d' :
  perform insert_check c d = (r, d') ->
  (d' = d \/
   exists table_name values checked,
     c = Insert table_name values /\
     insert_check table_name values (table_names d) (table_col_count d)
       (col_type d) = Ok checked /\
     ne_False checked = true /\
     d' = set_pk (pk d + 1)%Z d) /\
  ((forall table_name values, c <> Insert table_name values) ->
   d' = d /\ exists x, r = Ok x).
Proof.
  intros Hcall. split; [by eapply perform_frame|].
  intros Hother. destruct c; cbn [perform] in Hcall;
    try (injection Hcall as <- <-; split; eauto).
  by destruct (Hother table_name values).
Qed.

Lemma reaches_frame d d' :
  reaches insert_check d d' ->
  (pk d <= pk d')%Z /\ version d' = version d /\ schema d' = schema d /\
  table_names d' = table_names d /\ table_count d' = table_count d /\
  table_col_count d' = table_col_count d /\ column d' = column d /\
  col_type d' = col_type d.
Proof.
  induction 1 as [d | d c r d1 d2 Hcall _ IH].
  - repeat split. lia.
  - apply perform_frame in Hcall as [->|(? & ? & ? & _ & _ & _ & ->)];
      [exact IH|].
    cbn in IH. destruct IH as (Hp & IH). split; [lia | exact IH].
Qed.

Lemma reaches_handle d d' :
  handle insert_check d -> reaches insert_check d d' -> handle insert_check d'.
Proof.
  intros Hd Hreach. induction Hreach as [d | d c r d1 d2 Hcall _ IH]; [done|].
  apply IH. pose proof Hcall as Hstep.
  apply perform_frame in Hstep as [->|(t & v & ? & -> & _ & _ & _)];
    [done|].
  by eapply handle_insert.
Qed.

Lemma handle_schema d :
  handle insert_check d ->
  well_formed d /\ level d (table_count d) /\ (1 <= pk d)%Z.
Proof.
  induction 1 as [tables printed d Hinit | d t v r d' _ IH Hins].
  - split; [by eapply init_well_formed|].
    apply init_built in Hinit as ((_ & ? & ? & ? & ? & _) & -> & _).
    by repeat split.
  - assert (Hcall : perform insert_check (Insert t v) d = (r, d')) by done.
    apply perform_frame in Hcall as [->|(? & ? & ? & _ & _ & _ & ->)];
      [done|].
    destruct IH as (Hwf & Hlevel & Hpk).
    split; [exact Hwf|]. split; [exact Hlevel|]. cbn. lia.
Qed.

(** X14.  Over the life of a handle the row identifiers are never reused:
    if an [insert] passes the row check and, after any sequence of calls of
    any methods, whether they return or raise, another [insert] passes it,
    the second returns a strictly larger identifier than the first, both
    with version 0. *)
Theorem pk_never_reused d t1 v1 c1 r1 d1 d2 t2 v2 c2 :
  handle insert_check d ->
  insert_check t1 v1 (table_names d) (table_col_count d) (col_type d) = Ok c1 ->
  ne_False c1 = true ->
  insert insert_check t1 v1 d = (r1, d1) ->
  reaches insert_check d1 d2 ->
  insert_check t2 v2 (table_names d2) (table_col_count d2) (col_type d2) = Ok c2 ->
  ne_False c2 = true ->
  exists p1 p2 d3,
    r1 = Ok (PTuple [PInt p1; PInt 0]) /\
    insert insert_check t2 v2 d2 = (Ok (PTuple [PInt p2; PInt 0]), d3) /\
    (p1 < p2)%Z.
Proof.
  intros Hd Hc1 Hne1 Hins Hreach Hc2 Hne2.
  pose proof (handle_version _ _ Hd) as Hv.
  rewrite insert_run, Hc1, Hne1, Hv in Hins. injection Hins as <- <-.
  destruct (reaches_frame _ _ Hreach) as (Hpk & Hv2 & _). cbn in Hpk, Hv2.
  exists (pk d + 1)%Z, (pk d2 + 1)%Z, (set_pk (pk d2 + 1)%Z d2).
  split; [done|]. split; [|lia].
  by rewrite insert_run, Hc2, Hne2, Hv2, Hv.
Qed.

(** X15.  An [insert] whose row check returns [False] raises nothing: it
    returns the pair of the row counter as it stands (the identifier of the
    last accepted row, or 1) and of the version 0, and leaves the handle as
    it was.  An exception of the row check leaves [insert] with the handle
    as it was. *)
Theorem rejected_insert d table_name values :
  handle insert_check d ->
  (forall checked,
     insert_check table_name values (table_names d) (table_col_count d)
       (col_type d) = Ok checked ->
     ne_False checked = false ->
     insert insert_check table_name values d =
       (Ok (PTuple [PInt (pk d); PInt 0]), d)) /\
  (forall e,
     insert_check table_name values (table_names d) (table_col_count d)
       (col_type d) = Raise e ->
     insert insert_check table_name values d = (Raise e, d)).
Proof.
  intros Hd. pose proof (handle_version _ _ Hd) as Hv. split.
  - intros checked Hc Hne. by rewrite insert_run, Hc, Hne, Hv.
  - intros e Hc. by rewrite insert_run, Hc.
Qed.

(** X16.  Whatever is called on a handle, it stays a handle, its schema
    stays the legal one its constructor built (distinct identifiers as
    table names and, within a table, as column names; foreign keys pointing
    backwards; the four lists as long as the table count), its version
    stays 0 and its row counter never decreases and is at least 1. *)
Theorem handle_lifetime d d' :
  handle insert_check d -> reaches insert_check d d' ->
  handle insert_check d' /\
  well_formed d' /\ level d' (table_count d') /\
  table_names d' = table_names d /\ table_count d' = table_count d /\
  table_col_count d' = table_col_count d /\ column d' = column d /\
  col_type d' = col_type d /\ schema d' = schema d /\
  version d' = 0%Z /\ (1 <= pk d <= pk d')%Z.
Proof.
  intros Hd Hreach.
  pose proof (reaches_handle _ _ Hd Hreach) as Hd'.
  destruct (handle_schema _ Hd') as (Hwf & Hlevel & _).
  destruct (handle_schema _ Hd) as (_ & _ & Hpk).
  destruct (reaches_frame _ _ Hreach) as (Hle & _ & Hs & Hn & Hk & Hc & Hr & Ht).
  pose proof (handle_version _ _ Hd') as Hv.
  split; [exact Hd'|]. split; [exact Hwf|]. split; [exact Hlevel|].
  do 6 (split; [done|]). split; [exact Hv | lia].
Qed.

End Lifetime.

Lemma pk_never_reused_witness :
  let d := fields (__init__ users_posts) in
  let row := PList [PStr "ann"; PInt 30] in
  handle accept_all d /\
  exists d1 d2 d3 p2,
    insert accept_all (PStr "users") row d = (Ok (PTuple [PInt 2; PInt 0]), d1) /\
    reaches accept_all d1 d2 /\
    insert accept_all (PStr "users") row d2 = (Ok (PTuple [PInt p2; PInt 0]), d3) /\
    (2 < p2)%Z.
Proof.
  intros d row.
  assert (Hd : handle accept_all d)
    by (apply (handle_new _ users_posts []); vm_compute; reflexivity).
  split; [exact Hd|].
  set (d1 := set_pk 2 d). set (d2 := set_pk 3 d).
  assert (Hreach : reaches accept_all d1 d2).
  { apply (reaches_call _ d1 (Get (PStr "users") (PInt 2)) (Ok PNone) d1);
      [reflexivity|].
    apply (reaches_call _ d1 (Insert (PStr "posts") (PList [PInt 2]))
             (Ok (PTuple [PInt 3; PInt 0])) d2); [reflexivity|].
    apply reaches_here. }
  destruct (pk_never_reused accept_all d (PStr "users") row PNone
              (Ok (PTuple [PInt 2; PInt 0])) d1 d2 (PStr "users") row PNone
              Hd eq_refl eq_refl eq_refl Hreach eq_refl eq_refl)
    as (p1 & p2 & d3 & H1 & H2 & Hlt).
  injection H1 as <-.
  exists d1, d2, d3, p2. split; [reflexivity|]. split; [exact Hreach|].
  split; [exact H2 | exact Hlt].
Defined.

Lemma rejected_insert_witness :
  let d := fields (__init__ users_posts) in
  handle reject_all d /\
  ne_False (PBool false) = false /\
  insert reject_all (PStr "users") (PList []) d =
    (Ok (PTuple [PInt 1; PInt 0]), d).
Proof.
  intros d.
  assert (Hd : handle reject_all d)
    by (apply (handle_new _ users_posts []); vm_compute; reflexivity).
  split; [exact Hd|]. split; [reflexivity|].
  exact (proj1 (rejected_insert reject_all d (PStr "users") (PList []) Hd)
           (PBool false) eq_refl eq_refl).
Defined.

Lemma handle_lifetime_witness :
  let d := fields (__init__ users_posts) in
  handle accept_all d /\
  reaches accept_all d (set_pk 2 d) /\
  table_names (set_pk 2 d) = [PStr "users"; PStr "posts"] /\
  version (set_pk 2 d) = 0%Z.
Proof.
  intros d.
  assert (Hd : handle accept_all d)
    by (apply (handle_new _ users_posts []); vm_compute; reflexivity).
  assert (Hreach : reaches accept_all d (set_pk 2 d)).
  { apply (reaches_call _ d (Insert (PStr "users") (PList []))
             (Ok (PTuple [PInt 2; PInt 0])) (set_pk 2 d)); [reflexivity|].
    apply reaches_here. }
  split; [exact Hd|]. split; [exact Hreach|].
  destruct (handle_lifetime accept_all d _ Hd Hreach)
    as (_ & _ & _ & Hn & _ & _ & _ & _ & _ & Hv & _).
  split; [exact Hn | exact Hv].
Defined.

Lemma only_insert_changes_witness :
  let d := fields (__init__ users_posts) in
  perform accept_all (Scan (PStr "users") (PInt 1) PNone PNone) d = (Ok PNone, d) /\
  perform accept_all (Connect (PStr "localhost") (PInt 8080)) d =
    (Ok (PBool false), d).
Proof.
  intros d. split.
  - destruct (only_insert_changes accept_all
                (Scan (PStr "users") (PInt 1) PNone PNone) d _ _ eq_refl)
      as [_ H].
    destruct H as [_ [x Hx]]; [discriminate|]. reflexivity.
  - destruct (only_insert_changes accept_all
                (Connect (PStr "localhost") (PInt 8080)) d _ _ eq_refl)
      as [_ H].
    destruct H as [_ [x Hx]]; [discriminate|]. reflexivity.
Defined.

(** * A rejected table name *)

(** What comes after a list that builds is processed from the fields the
    list leaves. *)
Lemma init_continues (l post : list pyval) printed d :
  __init__ (PList l) = (printed, (Ok tt, d)) ->
  __init__ (PList (l ++ post)) =
    ([], for_each (table_body (PList (l ++ post))) post
           (set_schema (PList (l ++ post)) d)).
Proof.
  rewrite !init_list. intros [= _ Hrun]. f_equal.
  rewrite <- (app_nil_r l) in Hrun at 1 3.
  apply (prefix_run _ _ post) in Hrun.
  by rewrite for_each_app, (bind_run _ _ _ _ _ Hrun).
Qed.

(** X17.  When the definitions before a table build and the table's name is
    rejected, construction raises the exception of the name check and the
    rejected table leaves no trace: the fields are those left by the
    definitions before it, apart from the retained input. *)
Theorem rejected_table_name (l post : list pyval) (t name : pyval) printed d e :
  __init__ (PList l) = (printed, (Ok tt, d)) ->
  getitem t 0 = Ok name ->
  table_name_check name (table_names d) = Raise e ->
  __init__ (PList (l ++ t :: post)) =
    ([], (Raise e, set_schema (PList (l ++ t :: post)) d)).
Proof.
  intros Hinit Hname Hcheck.
  rewrite (init_continues _ _ _ _ Hinit). f_equal.
  cbn [for_each]. apply bind_raise.
  rewrite table_body_run, Hname. cbn [table_names set_schema].
  by rewrite Hcheck.
Qed.

Lemma rejected_table_name_witness :
  __init__ (PList [PTuple [PStr "users"; PList []]]) =
    ([], (Ok tt,
          mkDatabase (PList [PTuple [PStr "users"; PList []]])
            [PStr "users"] 1 [0] [[]] [[]] 1 0)) /\
  table_name_check (PStr "users") [PStr "users"] =
    Raise (ValueError "duplicate table names") /\
  __init__ two_users =
    ([], (Raise (ValueError "duplicate table names"),
          mkDatabase two_users [PStr "users"] 1 [0] [[]] [[]] 1 0)).
Proof.
  split; [vm_compute; reflexivity|]. split; [reflexivity|].
  exact (rejected_table_name [PTuple [PStr "users"; PList []]] []
           (PTuple [PStr "users"; PList []]) (PStr "users") [] _ _
           eq_refl eq_refl eq_refl).
Defined.

(** * Duplicate names *)

Section Duplicates.

Implicit Types (s : string) (candidate : pyval) (existing names : list pyval).

(** A failure of kind DuplicateName comes from the last test of a check:
    the candidate is a string found among the existing names. *)
Lemma duplicate_found candidate existing :
  fails_with (table_name_check candidate existing) DuplicateName \/
  fails_with (column_name_check candidate existing) DuplicateName ->
  exists s, candidate = PStr s /\ PStr s ∈ existing.
Proof.
  unfold table_name_check, column_name_check, first_isalpha, getitem.
  destruct candidate as [| | |s| | |]; try (intros [[=]|[=]]).
  destruct (String.get 0 s) as [c|]; cbn; [|intros [[=]|[=]]].
  destruct (char_isalpha c); cbn; [|intros [[=]|[=]]].
  destruct (re_match_word s); cbn; [|intros [[=]|[=]]].
  destruct (duplicated s existing) eqn:Hdup; cbn; [|intros [[]|[]]].
  intros _. exists s. split; [done | by apply duplicated_elem_of].
Qed.

(** A string that is already among names accepted before is an identifier,
    so it passes the tests on its characters and reaches the last one. *)
Lemma duplicate_reported s existing :
  names_so_far existing -> PStr s ∈ existing ->
  table_name_check (PStr s) existing = Raise (ValueError "duplicate table names") /\
  column_name_check (PStr s) existing = Raise (ValueError "duplicate column names").
Proof.
  intros Hnames Hin.
  unfold names_so_far in Hnames. rewrite Forall_forall in Hnames.
  destruct (Hnames _ Hin) as [(s' & [= <-] & Hid)|[=]].
  apply name_checks_pass in Hid as [Hfirst Hword].
  apply duplicated_elem_of in Hin.
  unfold table_name_check, column_name_check.
  by rewrite Hfirst, Hword, Hin.
Qed.

Lemma names_so_far_identifiers names :
  Forall identifier names -> names_so_far names.
Proof.
  intros Hids. unfold names_so_far.
  eapply Forall_impl; [exact Hids | by left].
Qed.

Lemma names_so_far_row names :
  Forall identifier names -> names_so_far (with_placeholders names).
Proof.
  unfold names_so_far, with_placeholders.
  induction 1 as [|n names Hn _ IH]; cbn; [constructor|].
  constructor; [by right|]. constructor; [by left | exact IH].
Qed.

(** C8.  Against the names accepted so far, a name check fails with kind
    DuplicateName exactly when the candidate is a string equal, character
    for character, to one of them: for every list of accepted names, with or
    without the placeholders of a row of [column]; in particular for the
    table names and for every row of column names of a built schema.  Two
    tables both named "users" fail with DuplicateName; "users" and "Users"
    are both accepted. *)
Theorem duplicate_name_exactly :
  (forall candidate existing,
     names_so_far existing ->
     (fails_with (table_name_check candidate existing) DuplicateName <->
      exists s, candidate = PStr s /\ PStr s ∈ existing) /\
     (fails_with (column_name_check candidate existing) DuplicateName <->
      exists s, candidate = PStr s /\ PStr s ∈ existing)) /\
  (forall tables printed d candidate,
     __init__ tables = (printed, (Ok tt, d)) ->
     (fails_with (table_name_check candidate (table_names d)) DuplicateName <->
      candidate ∈ table_names d)) /\
  (forall tables printed d i row s,
     __init__ tables = (printed, (Ok tt, d)) ->
     column d !! i = Some row ->
     (fails_with (column_name_check (PStr s) (row ++ [PList []])) DuplicateName <->
      PStr s ∈ row)) /\
  fails_with (outcome (__init__ two_users)) DuplicateName /\
  outcome (__init__ users_Users) = Ok tt /\
  table_names (fields (__init__ users_Users)) = [PStr "users"; PStr "Users"].
Proof.
  assert (Hgeneral : forall candidate existing,
            names_so_far existing ->
            (fails_with (table_name_check candidate existing) DuplicateName <->
             exists s, candidate = PStr s /\ PStr s ∈ existing) /\
            (fails_with (column_name_check candidate existing) DuplicateName <->
             exists s, candidate = PStr s /\ PStr s ∈ existing)).
  { intros candidate existing Hnames. split; split.
    - intros H. apply duplicate_found. by left.
    - intros (s & -> & Hin).
      by rewrite (proj1 (duplicate_reported _ _ Hnames Hin)).
    - intros H. apply duplicate_found. by right.
    - intros (s & -> & Hin).
      by rewrite (proj2 (duplicate_reported _ _ Hnames Hin)). }
  split; [exact Hgeneral|]. split; [|split; [|by repeat split]].
  - intros tables printed d candidate Hinit.
    apply init_well_formed in Hinit as (_ & Hids & _).
    rewrite (proj1 (Hgeneral candidate _ (names_so_far_identifiers _ Hids))).
    split; [by intros (s & -> & Hin)|].
    intros Hin. rewrite Forall_forall in Hids.
    destruct (Hids _ Hin) as (s & -> & _). by exists s.
  - intros tables printed d i row s Hinit Hrow.
    apply init_well_formed in Hinit as (_ & _ & Hrows & _).
    destruct (Hrows i row Hrow) as (names & -> & _ & Hids).
    assert (Hnames : names_so_far (with_placeholders names ++ [PList []])).
    { apply Forall_app. split; [by apply names_so_far_row|].
      constructor; [by right | constructor]. }
    rewrite (proj2 (Hgeneral (PStr s) _ Hnames)). split.
    + intros (s' & [= <-] & Hin).
      apply elem_of_app in Hin as [Hin|Hin]; [done|].
      by apply list_elem_of_singleton in Hin.
    + intros Hin. exists s. split; [done|]. apply elem_of_app. by left.
Qed.

End Duplicates.

Lemma duplicate_name_exactly_witness :
  names_so_far [PList []; PStr "name"; PList []] /\
  fails_with (column_name_check (PStr "name") [PList []; PStr "name"; PList []])
    DuplicateName /\
  ~ fails_with (column_name_check (PStr "Name") [PList []; PStr "name"; PList []])
      DuplicateName /\
  __init__ users_posts =
    ([], (Ok tt,
          mkDatabase users_posts [PStr "users"; PStr "posts"] 2 [2; 1]
            [[PList []; PStr "name"; PList []; PStr "age"];
             [PList []; PStr "author"]]
            [[PClass class_str; PClass class_int]; [PStr "users"]] 1 0)) /\
  fails_with (table_name_check (PStr "posts") [PStr "users"; PStr "posts"])
    DuplicateName.
Proof.
  destruct duplicate_name_exactly as (Hgeneral & Htables & _).
  assert (Hid : identifier (PStr "name")).
  { exists "name". split; [reflexivity|]. by apply name_checks_pass. }
  assert (Hnames : names_so_far [PList []; PStr "name"; PList []]).
  { constructor; [by right|]. constructor; [by left|].
    constructor; [by right | constructor]. }
  split; [exact Hnames|]. split; [|split; [|split]].
  - apply (Hgeneral (PStr "name") _ Hnames). exists "name".
    split; [reflexivity|]. apply list_elem_of_further, list_elem_of_here.
  - intros H. apply (Hgeneral (PStr "Name") _ Hnames) in H as (s & [= <-] & Hin).
    apply list_elem_of_In in Hin. cbn in Hin.
    destruct Hin as [[=]|[[=]|[[=]|[]]]].
  - vm_compute. reflexivity.
  - apply (Htables users_posts [] _ (PStr "posts") users_posts_run).
    apply list_elem_of_further, list_elem_of_here.
Defined.
